(** * cncPathPreview: a shallow embedding of [cncpathpreview.py]

    The program reads a G-code file, collects the target point of every
    move (and the quadrant points of arcs), and writes a preview program
    that visits the extreme points at a safe height.

    Modelling choices.
    - A Python [float] is a real number ([R]).  [round], [int], [sqrt],
      [acos] and [degrees] are the corresponding real functions.  What
      binary floating point adds to them is outside the model: rounding of
      the arithmetic (also at decimal ties of [round]), cancellation,
      underflow, the [OverflowError] of [** 2] on a huge operand, and the
      values infinity and NaN.
    - A Python exception is a value of [exception]; a function that may
      raise returns a [result].
    - The five-slot list built by [parse_coordinates] is the record
      [coordinate]; a point [[x, y, z]] is the record [point].
    - The point objects consulted by [get_extreme_value] live in a store
      ([heap]) and the data list holds their locations, so that writes
      through an alias are visible. *)

From Stdlib Require Import Reals Lra Lia ZArith List String Ascii Bool.
From Stdlib Require Import Zfloor.
Import ListNotations.

(** ** Python values, exceptions and results *)

Inductive exception : Type :=
| ValueError (msg : string)
| TypeError (msg : string).

Inductive result (A : Type) : Type :=
| Ok (a : A)
| Raise (e : exception).

Arguments Ok {A} a.
Arguments Raise {A} e.

Definition bind {A B : Type} (r : result A) (k : A -> result B) : result B :=
  match r with
  | Ok a => k a
  | Raise e => Raise e
  end.

Notation "x <- r ;; k" := (bind r (fun x => k))
  (at level 61, r at next level, right associativity).

(** The classification predicates return either a [bool] or, because of the
    way [is_move] chains [or], the integer computed by [str.find]. *)
Inductive pyobj : Type :=
| PyBool (b : bool)
| PyInt (z : Z).

Definition truthy (o : pyobj) : bool :=
  match o with
  | PyBool b => b
  | PyInt z => negb (z =? 0)%Z
  end.

(** Python's [a or b]: [a] when it is truthy, [b] otherwise. *)
Definition py_or (a b : pyobj) : pyobj := if truthy a then a else b.

(** ** Strings *)

Module Str.

(** [s.find(sub)]: lowest index of [sub] in [s], [-1] when absent. *)
Definition find (s sub : string) : Z :=
  match index 0 sub s with
  | Some n => Z.of_nat n
  | None => (-1)%Z
  end.

Definition mem_ascii (c : ascii) (cs : list ascii) : bool :=
  existsb (Ascii.eqb c) cs.

Fixpoint lstrip_chars (cs : list ascii) (l : list ascii) : list ascii :=
  match l with
  | c :: l' => if mem_ascii c cs then lstrip_chars cs l' else l
  | [] => []
  end.

Definition strip_chars (cs : list ascii) (l : list ascii) : list ascii :=
  rev (lstrip_chars cs (rev (lstrip_chars cs l))).

(** [s.strip(chars)] *)
Definition strip_set (chars s : string) : string :=
  string_of_list_ascii
    (strip_chars (list_ascii_of_string chars) (list_ascii_of_string s)).

(** The ASCII characters for which [str.isspace] holds; white space
    outside ASCII is not part of the model. *)
Definition whitespace : list ascii :=
  map ascii_of_nat [9; 10; 11; 12; 13; 28; 29; 30; 31; 32]%nat.

(** [s.strip()] *)
Definition strip (s : string) : string :=
  string_of_list_ascii (strip_chars whitespace (list_ascii_of_string s)).

(** [s.split(' ')]: cut at every single space, empty pieces are kept. *)
Fixpoint split_space_aux (cur : list ascii) (l : list ascii) : list string :=
  match l with
  | [] => [string_of_list_ascii (rev cur)]
  | c :: l' =>
      if Ascii.eqb c " "%char
      then string_of_list_ascii (rev cur) :: split_space_aux [] l'
      else split_space_aux (c :: cur) l'
  end.

Definition split_space (s : string) : list string :=
  split_space_aux [] (list_ascii_of_string s).

Definition nonempty (s : string) : bool :=
  match s with
  | EmptyString => false
  | String _ _ => true
  end.

End Str.

(** ** Line classification *)

Open Scope string_scope.
Open Scope list_scope.

(** [is_move]: the second and the fourth operand of the [or] chain are the
    bare results of [find], not comparisons with [-1]. *)
Definition is_move (command : string) : pyobj :=
  if Str.nonempty command then
    py_or (py_or (py_or (PyBool (-1 <? Str.find command "G00")%Z)
                        (PyInt (Str.find command "G0 ")))
                 (PyBool (-1 <? Str.find command "G01")%Z))
          (PyInt (Str.find command "G1 "))
  else PyBool false.

Definition is_arc (command : string) : pyobj :=
  if Str.nonempty command then
    PyBool ((-1 <? Str.find command "G02")%Z || (-1 <? Str.find command "G03")%Z
            || (-1 <? Str.find command "G2 ")%Z || (-1 <? Str.find command "G3 ")%Z)
  else PyBool false.

Definition is_coordinate_shift (command : string) : pyobj :=
  if Str.nonempty command then PyBool (-1 <? Str.find command "G92")%Z
  else PyBool false.

(** ** Numbers *)

Open Scope R_scope.

Definition Rleb (x y : R) : bool := if Rle_dec x y then true else false.
Definition Rltb (x y : R) : bool := if Rlt_dec x y then true else false.
Definition Rzerob (x : R) : bool := if Req_dec_T x 0 then true else false.

(** Rounding to the nearest integer, ties to the even one, as [round] does. *)
Definition round_half_even (x : R) : Z :=
  let f := Zfloor x in
  if Rlt_dec (x - IZR f) (1 / 2) then f
  else if Rlt_dec (1 / 2) (x - IZR f) then (f + 1)%Z
  else if Z.even f then f else (f + 1)%Z.

(** [round(x, ndigits)] *)
Definition py_round (x : R) (ndigits : nat) : R :=
  IZR (round_half_even (x * 10 ^ ndigits)) / 10 ^ ndigits.

(** [int(x)]: truncation towards zero. *)
Definition py_int (x : R) : Z :=
  if Rle_dec 0 x then Zfloor x else Zceil x.

(** [math.degrees] *)
Definition degrees (rad : R) : R := rad * (180 / PI).

(** [math.acos]: a domain error outside [-1, 1]. *)
Definition py_acos (x : R) : result R :=
  if Rleb (-1) x && Rleb x 1 then Ok (acos x)
  else Raise (ValueError "math domain error").

(** *** [float(s)]

    The text, with white space removed at both ends, is

      [sign] (number [exponent] | inf | infinity | nan)

    where a number is [digits . digits], [digits .], [. digits] or
    [digits], an exponent is [e [sign] digits], and digits may be grouped
    by single underscores between two digits.  [inf], [infinity] and [nan]
    (in any case) denote no real number: [non_finite] recognises them, and
    the properties that depend on a text being rejected exclude them.  The
    model reads ASCII text. *)
Module Dec.

(** The white space that [float] removes from an ASCII text. *)
Definition whitespace : list ascii :=
  map ascii_of_nat [9; 10; 11; 12; 13; 32]%nat.

Definition digit_of (c : ascii) : option Z :=
  let n := nat_of_ascii c in
  if (48 <=? n)%nat && (n <=? 57)%nat then Some (Z.of_nat (n - 48)) else None.

Definition is_digit (c : ascii) : bool :=
  match digit_of c with
  | Some _ => true
  | None => false
  end.

(** Digits with single underscores between them; [cnt] counts the digits
    read so far.  An underscore that does not stand between two digits
    makes the whole text invalid. *)
Fixpoint read_digits (acc : Z) (cnt : nat) (l : list ascii)
  : option (Z * nat * list ascii) :=
  match l with
  | c :: l' =>
      match digit_of c with
      | Some d => read_digits (10 * acc + d)%Z (S cnt) l'
      | None =>
          if Ascii.eqb c "_"%char then
            match cnt, l' with
            | S _, c2 :: _ =>
                if is_digit c2 then read_digits acc cnt l' else None
            | _, _ => None
            end
          else Some (acc, cnt, l)
      end
  | [] => Some (acc, cnt, l)
  end.

Definition read_sign (l : list ascii) : bool * list ascii :=
  match l with
  | "-"%char :: l' => (true, l')
  | "+"%char :: l' => (false, l')
  | _ => (false, l)
  end.

Definition read_exponent (l : list ascii) : option Z :=
  match l with
  | [] => Some 0%Z
  | c :: l' =>
      if Ascii.eqb c "e"%char || Ascii.eqb c "E"%char then
        let '(neg, l1) := read_sign l' in
        match read_digits 0 0 l1 with
        | Some (e, S _, []) => Some (if neg then - e else e)%Z
        | _ => None
        end
      else None
  end.

(** mantissa and decimal exponent of a literal *)
Definition parse (l : list ascii) : option (Z * Z) :=
  let '(neg, l0) := read_sign l in
  match read_digits 0 0 l0 with
  | None => None
  | Some (ip, n1, l1) =>
      match
        match l1 with
        | "."%char :: l1' => read_digits ip 0 l1'
        | _ => Some (ip, O, l1)
        end
      with
      | None => None
      | Some (m, n2, l2) =>
          match (n1 + n2)%nat with
          | O => None
          | S _ =>
              match read_exponent l2 with
              | Some e =>
                  Some ((if neg then - m else m)%Z, (e - Z.of_nat n2)%Z)
              | None => None
              end
          end
      end
  end.

Definition of_string (s : string) : option (Z * Z) :=
  parse (Str.strip_chars whitespace (list_ascii_of_string s)).

(** the number [m * 10 ^ e] *)
Definition value (d : Z * Z) : R :=
  let '(m, e) := d in
  if (0 <=? e)%Z then IZR (m * 10 ^ e) else IZR m / IZR (10 ^ (- e)).



End Dec.

(** *** [repr] of an ASCII string, as the message of [float] shows it *)

Definition repr_char (quote c : ascii) : list ascii :=
  let n := nat_of_ascii c in
  let backslash := ascii_of_nat 92 in
  let hex := list_ascii_of_string "0123456789abcdef" in
  if Ascii.eqb c quote || Ascii.eqb c backslash then [backslash; c]
  else if (n =? 9)%nat then [backslash; "t"%char]
  else if (n =? 10)%nat then [backslash; "n"%char]
  else if (n =? 13)%nat then [backslash; "r"%char]
  else if (n <? 32)%nat || (n =? 127)%nat then
    [backslash; "x"%char; nth (n / 16) hex "0"%char; nth (n mod 16) hex "0"%char]
  else [c].

Definition py_repr (s : string) : string :=
  let l := list_ascii_of_string s in
  let single := "'"%char in
  let double := ascii_of_nat 34 in
  let quote :=
    if existsb (Ascii.eqb single) l && negb (existsb (Ascii.eqb double) l)
    then double else single in
  string_of_list_ascii (quote :: flat_map (repr_char quote) l ++ [quote]).

(** The message of the [ValueError] that [float] raises on a text. *)
Definition float_error (s : string) : string :=
  ("could not convert string to float: " ++ py_repr s)%string.

(** [float(s)] *)
Definition float (s : string) : result R :=
  match Dec.of_string s with
  | Some d => Ok (Dec.value d)
  | None => Raise (ValueError (float_error s))
  end.

(** ** Coordinates and points *)

(** The list [[X, Y, Z, I, J]] of [parse_coordinates]; [None] is an axis
    that the line does not mention. *)
Record coordinate : Type := mkCoordinate {
  cX : option R;
  cY : option R;
  cZ : option R;
  cI : option R;
  cJ : option R
}.

(** A list [[x, y, z]]. *)
Record point : Type := mkPoint {
  px : R;
  py : R;
  pz : R
}.

(** [p[column_index]]; the program uses the indices 0, 1 and 2 only. *)
Definition column (column_index : nat) (p : point) : R :=
  match column_index with
  | 0%nat => px p
  | 1%nat => py p
  | _ => pz p
  end.

Definition contains (value letter : string) : bool :=
  (-1 <? Str.find value letter)%Z.

(** One round of the loop body of [parse_coordinates]. *)
Definition parse_value (coord : coordinate) (value : string)
  : result coordinate :=
  c0 <- (if contains value "X"
         then x <- float (Str.strip_set "X " value) ;;
              Ok (mkCoordinate (Some x) (cY coord) (cZ coord)
                               (cI coord) (cJ coord))
         else Ok coord) ;;
  c1 <- (if contains value "Y"
         then y <- float (Str.strip_set "Y " value) ;;
              Ok (mkCoordinate (cX c0) (Some y) (cZ c0) (cI c0) (cJ c0))
         else Ok c0) ;;
  c2 <- (if contains value "Z"
         then z <- float (Str.strip_set "Z " value) ;;
              Ok (mkCoordinate (cX c1) (cY c1) (Some z) (cI c1) (cJ c1))
         else Ok c1) ;;
  c3 <- (if contains value "I"
         then i <- float (Str.strip_set "I " value) ;;
              Ok (mkCoordinate (cX c2) (cY c2) (cZ c2) (Some i) (cJ c2))
         else Ok c2) ;;
  if contains value "J"
  then j <- float (Str.strip_set "J " value) ;;
       Ok (mkCoordinate (cX c3) (cY c3) (cZ c3) (cI c3) (Some j))
  else Ok c3.

Fixpoint parse_values (coord : coordinate) (values : list string)
  : result coordinate :=
  match values with
  | [] => Ok coord
  | value :: values' =>
      c <- parse_value coord value ;; parse_values c values'
  end.

Definition parse_coordinates (line : string) : result coordinate :=
  parse_values (mkCoordinate None None None None None) (Str.split_space line).

(** One axis of [fill_coordinates]: hold the previous value, or shift the
    stated one. *)
Definition fill_axis (c : option R) (previous shift : R) : R :=
  match c with
  | None => previous
  | Some v => v + shift
  end.

(** After [fill_coordinates] the first three slots are numbers; the record
    keeps them as the point and the untouched I and J next to it. *)
Record filled : Type := mkFilled {
  fxyz : point;
  fI : option R;
  fJ : option R
}.

Definition fill_coordinates (coordinates : coordinate)
    (previous_coordinates shift : point) : filled :=
  mkFilled
    (mkPoint (fill_axis (cX coordinates) (px previous_coordinates) (px shift))
             (fill_axis (cY coordinates) (py previous_coordinates) (py shift))
             (fill_axis (cZ coordinates) (pz previous_coordinates) (pz shift)))
    (cI coordinates) (cJ coordinates).

(** One axis of [handle_coordinate_shift]: [if v: shift[i] -= v]; both
    [None] and [0.0] are falsy. *)
Definition shift_axis (c : option R) (shift : R) : R :=
  match c with
  | None => shift
  | Some v => if Rzerob v then shift else shift - v
  end.

Definition handle_coordinate_shift (line : string) (shift : point)
  : result point :=
  coordinate_system_shift <- parse_coordinates line ;;
  Ok (mkPoint (shift_axis (cX coordinate_system_shift) (px shift))
              (shift_axis (cY coordinate_system_shift) (py shift))
              (shift_axis (cZ coordinate_system_shift) (pz shift))).

Definition handle_linear_move (line : string)
    (previous_coordinates shift : point) : result point :=
  c <- parse_coordinates line ;;
  Ok (fxyz (fill_coordinates c previous_coordinates shift)).

(** ** Arcs *)

(** [get_arc_degrees]; [cx], [cy] are the two entries of [arc_center]. *)
Definition get_arc_degrees (coordinates : point) (arc_center : R * R)
    (radius : R) : result R :=
  if Rleb radius 0 then Ok 0
  else
    let cos := py_round ((px coordinates - fst arc_center) / radius) 3 in
    rad <- py_acos cos ;;
    let rad := if Rltb (py coordinates - snd arc_center) 0
               then 2 * PI - rad else rad in
    Ok (py_round (degrees rad) 0).

(** [a in range(lo, hi)] *)
Definition in_range (a lo hi : Z) : bool := (lo <=? a)%Z && (a <? hi)%Z.

(** [range(90, 361, 90)] *)
Definition crossing_angles : list Z := [90; 180; 270; 360]%Z.

(** The operand of [** 2]: a slot that still holds [None] is a type
    error.  The overflow of the square of a huge operand is not modelled;
    [squares_safely] names the operands that are far from it. *)
Definition pow_operand (c : option R) : result R :=
  match c with
  | Some v => Ok v
  | None =>
      Raise (TypeError
        "unsupported operand type(s) for ** or pow(): 'NoneType' and 'int'")
  end.

(** The loop that collects the quadrant points; slot 0 of
    [extremevalue_order] is the placeholder [0]. *)
Fixpoint collect_crossings (angles : list Z) (arc_start arc_end : R)
    (extremevalue_order : list (option point)) : list point :=
  match angles with
  | [] => []
  | crossing_angle :: rest =>
      let tail :=
        collect_crossings rest arc_start arc_end extremevalue_order in
      if in_range crossing_angle (py_int arc_start) (py_int arc_end) then
        match nth (Z.to_nat (crossing_angle / 90)) extremevalue_order None with
        | Some p => p :: tail
        | None => tail
        end
      else tail
  end.

Definition handle_arc_move_ij (line : string)
    (previous_coordinates shift : point) : result (list point) :=
  c <- parse_coordinates line ;;
  let coordinates := fill_coordinates c previous_coordinates shift in
  i <- pow_operand (fI coordinates) ;;
  j <- pow_operand (fJ coordinates) ;;
  let radius := sqrt (i ^ 2 + j ^ 2) in
  let arc_center :=
    (px previous_coordinates + i, py previous_coordinates + j) in
  let xyz := fxyz coordinates in
  angles <-
    (if (-1 <? Str.find line "G02")%Z || (-1 <? Str.find line "G2 ")%Z then
       arc_start <- get_arc_degrees xyz arc_center radius ;;
       arc_end <- get_arc_degrees previous_coordinates arc_center radius ;;
       Ok (Some (arc_start, arc_end))
     else if (-1 <? Str.find line "G03")%Z || (-1 <? Str.find line "G3 ")%Z then
       arc_start <- get_arc_degrees previous_coordinates arc_center radius ;;
       arc_end <- get_arc_degrees xyz arc_center radius ;;
       Ok (Some (arc_start, arc_end))
     else Ok None) ;;
  match angles with
  | None => Ok []
  | Some (arc_start, arc_end) =>
      let x_center := px previous_coordinates + i in
      let y_center := py previous_coordinates + j in
      let x_plus_radius := mkPoint (x_center + radius) y_center (pz xyz) in
      let y_plus_radius := mkPoint x_center (y_center + radius) (pz xyz) in
      let x_minus_radius := mkPoint (x_center - radius) y_center (pz xyz) in
      let y_minus_radius := mkPoint x_center (y_center - radius) (pz xyz) in
      let extremevalue_order :=
        [None; Some y_plus_radius; Some x_minus_radius;
         Some y_minus_radius; Some x_plus_radius] in
      let arc_end :=
        if Rltb (arc_end - arc_start) 0 then arc_end + 360 else arc_end in
      Ok (collect_crossings crossing_angles arc_start arc_end
            extremevalue_order ++ [xyz])
  end.

(** ** The driver *)

Record tracker : Type := mkTracker {
  data : list point;
  previous_coordinates : point;
  shift : point
}.

(** [data[-1]] when [data] is not empty. *)
Definition refresh_previous (data : list point) (previous : point) : point :=
  match rev data with
  | last :: _ => last
  | [] => previous
  end.

(** The body of the loop over the lines.  The test [if lines:] before
    [data.extend] always succeeds inside the loop; the console messages
    are left out. *)
Definition process_line (st : tracker) (line : string) : result tracker :=
  let line := Str.strip line in
  st' <-
    (if truthy (is_move line) then
       p <- handle_linear_move line (previous_coordinates st) (shift st) ;;
       Ok (mkTracker (data st ++ [p]) (previous_coordinates st) (shift st))
     else if truthy (is_arc line) then
       extreme_values <-
         handle_arc_move_ij line (previous_coordinates st) (shift st) ;;
       Ok (mkTracker (data st ++ extreme_values)
                     (previous_coordinates st) (shift st))
     else if truthy (is_coordinate_shift line) then
       s <- handle_coordinate_shift line (shift st) ;;
       Ok (mkTracker (data st) (previous_coordinates st) s)
     else Ok st) ;;
  Ok (mkTracker (data st') (refresh_previous (data st') (previous_coordinates st'))
                (shift st')).

Fixpoint process_lines (st : tracker) (lines : list string) : result tracker :=
  match lines with
  | [] => Ok st
  | line :: lines' => st' <- process_line st line ;; process_lines st' lines'
  end.

Definition origin : point := mkPoint 0 0 0.

Definition initial : tracker := mkTracker [] origin origin.

Definition create_dataset_from_input (lines : list string)
  : result (list point) :=
  st <- process_lines initial lines ;; Ok (data st).

(** ** Extreme values

    [get_extreme_value] writes into the list that [min]/[max] hand back,
    which is one of the lists held by [data].  The points therefore live in
    a store and [data] holds their locations. *)

Definition heap : Type := list point.
Definition loc : Type := nat.

Definition deref (h : heap) (l : loc) : point := nth l h origin.

Fixpoint store (h : heap) (l : loc) (p : point) : heap :=
  match h, l with
  | [], _ => []
  | _ :: h', O => p :: h'
  | q :: h', S l' => q :: store h' l' p
  end.

(** The scan of [min]/[max] with a key: the running best is replaced only
    by a strictly better item, so the first of several equal items wins. *)
Fixpoint select_by (better : R -> R -> bool) (key : loc -> R)
    (best : loc) (rest : list loc) : loc :=
  match rest with
  | [] => best
  | item :: rest' =>
      if better (key item) (key best)
      then select_by better key item rest'
      else select_by better key best rest'
  end.

Definition get_max_by_column (h : heap) (data : list loc)
    (column_index : nat) : result loc :=
  match data with
  | [] => Raise (ValueError "max() arg is an empty sequence")
  | first :: rest =>
      Ok (select_by (fun a b => Rltb b a)
                    (fun l => column column_index (deref h l)) first rest)
  end.

Definition get_min_by_column (h : heap) (data : list loc)
    (column_index : nat) : result loc :=
  match data with
  | [] => Raise (ValueError "min() arg is an empty sequence")
  | first :: rest =>
      Ok (select_by Rltb
                    (fun l => column column_index (deref h l)) first rest)
  end.

(** What [get_extreme_value] returns, before the numbers are printed: the
    text for [Zmin], or the three rounded coordinates. *)
Inductive extreme : Type :=
| ZminMessage (zmin : R)
| Target (x y z : R).

(** [result[2] = zsafety] followed by the rounding of the three entries. *)
Definition override_z (h : heap) (l : loc) (zsafety : R) : extreme * heap :=
  let h' := store h l (mkPoint (px (deref h l)) (py (deref h l)) zsafety) in
  (Target (py_round (px (deref h' l)) 3) (py_round (py (deref h' l)) 3)
          (py_round (pz (deref h' l)) 3), h').

Definition get_extreme_value (axis : string) (data : list loc) (zsafety : R)
    (h : heap) : result (extreme * heap) :=
  if String.eqb axis "Zmin" then
    l <- get_min_by_column h data 2 ;;
    Ok (ZminMessage (py_round (pz (deref h l)) 3), h)
  else if String.eqb axis "Ymin" then
    l <- get_min_by_column h data 1 ;; Ok (override_z h l zsafety)
  else if String.eqb axis "Xmin" then
    l <- get_min_by_column h data 0 ;; Ok (override_z h l zsafety)
  else if String.eqb axis "Ymax" then
    l <- get_max_by_column h data 1 ;; Ok (override_z h l zsafety)
  else if String.eqb axis "Xmax" then
    l <- get_max_by_column h data 0 ;; Ok (override_z h l zsafety)
  else
    Ok (Target (py_round 0 3) (py_round 0 3) (py_round zsafety 3), h).

(** The lookups of [generate_output_file], in the order in which it makes
    them. *)
Fixpoint get_extreme_values (targets : list string) (data : list loc)
    (zsafety : R) (h : heap) : result (list extreme * heap) :=
  match targets with
  | [] => Ok ([], h)
  | text :: targets' =>
      r <- get_extreme_value text data zsafety h ;;
      rs <- get_extreme_values targets' data zsafety (snd r) ;;
      Ok (fst r :: fst rs, snd rs)
  end.

Definition generate_output (data : list loc) (zsafety : R) (h : heap)
  : result (list extreme * heap) :=
  get_extreme_values ["Zmin"; "Ymin"; "Xmin"; "Ymax"; "Xmax"] data zsafety h.

(** The data list built by the driver holds one fresh list per point. *)
Definition allocate (points : list point) : heap * list loc :=
  (points, seq 0 (List.length points)).

(** What an in-place write of the safety height does to the store. *)
Definition z_overwritten (h h' : heap) (data : list loc) (zsafety : R) : Prop :=
  (forall l, px (deref h' l) = px (deref h l) /\
             py (deref h' l) = py (deref h l)) /\
  (h' = h \/
   exists l0, In l0 data /\
     pz (deref h' l0) = zsafety /\
     forall l, l <> l0 -> deref h' l = deref h l).

(** ** Safety height *)

(** [convert_input_zsafety]; the second component is the text sent to the
    error stream, if any. *)
Definition convert_input_zsafety (zsafety : R) : R * option string :=
  let zsafety := py_round zsafety 0 in
  if Rleb zsafety 0
  then (25, Some "Error: Number invalid for safety height. Defaulting to Z=25.")
  else (zsafety, None).

(** ** Names for the parts of an arc *)

Inductive direction : Type := CW | CCW.

(** The branch that [handle_arc_move_ij] takes on a line. *)
Definition arc_direction (line : string) : option direction :=
  if (-1 <? Str.find line "G02")%Z || (-1 <? Str.find line "G2 ")%Z
  then Some CW
  else if (-1 <? Str.find line "G03")%Z || (-1 <? Str.find line "G3 ")%Z
  then Some CCW
  else None.

(** The entry of [extremevalue_order] that belongs to a crossing angle:
    the point of the circle at 90, 180, 270 or 360 degrees. *)
Definition cardinal_point (a : Z) (center : R * R) (radius z : R) : point :=
  if (a =? 90)%Z then mkPoint (fst center) (snd center + radius) z
  else if (a =? 180)%Z then mkPoint (fst center - radius) (snd center) z
  else if (a =? 270)%Z then mkPoint (fst center) (snd center - radius) z
  else mkPoint (fst center + radius) (snd center) z.

(** The exact motion words of the input grammar, and the test that a line
    carries one of them as a space-delimited word. *)
Definition motion_tokens : list string :=
  ["G0"; "G00"; "G1"; "G01"; "G2"; "G02"; "G3"; "G03"; "G92"].

Definition has_motion_token (line : string) : bool :=
  existsb (fun token => existsb (String.eqb token) motion_tokens)
          (Str.split_space line).

(** The letters that [parse_coordinates] looks for. *)
Definition axis_letters : list string := ["X"; "Y"; "Z"; "I"; "J"].

(** The word mentions an axis letter, the text left after stripping that
    letter and spaces is no number, and [e] is the exception that [float]
    raises on it. *)
Definition bad_word (value : string) (e : exception) : Prop :=
  exists letter,
    In letter axis_letters /\
    contains value letter = true /\
    Dec.of_string (Str.strip_set (letter ++ " ") value) = None /\
    e = ValueError (float_error (Str.strip_set (letter ++ " ") value)).

(** No space-delimited word of the line mentions the letter. *)
Definition axis_absent (letter line : string) : bool :=
  forallb (fun value => negb (contains value letter)) (Str.split_space line).

(** ** The arc sweep as the specification words it

    The specification describes the angle of a point without the rounding
    of the cosine and of the degrees, and tests the quadrant angles against
    the resulting real interval. *)
Module Spec.

Definition clamp (x lo hi : R) : R :=
  if Rltb x lo then lo else if Rltb hi x then hi else x.

Definition angle (p : point) (center : R * R) (radius : R) : R :=
  let a := degrees (acos (clamp ((px p - fst center) / radius) (-1) 1)) in
  if Rltb (py p - snd center) 0 then 360 - a else a.

(** start and end angle, the end moved past the start *)
Definition sweep (d : direction) (previous endpoint : point)
    (center : R * R) (radius : R) : R * R :=
  let '(startAngle, endAngle) :=
    match d with
    | CW => (angle endpoint center radius, angle previous center radius)
    | CCW => (angle previous center radius, angle endpoint center radius)
    end in
  (startAngle, if Rltb endAngle startAngle then endAngle + 360 else endAngle).

Definition qualifies (a : Z) (s : R * R) : Prop :=
  fst s <= IZR a < snd s.

End Spec.

(** ** The rapid-move line of the preview program *)

Definition newline : string := String (ascii_of_nat 10) EmptyString.

(** [get_rapidmove]; the three arguments are the three strings of the list
    that the callers pass. *)
Definition get_rapidmove (x y z : string) : string :=
  ("G00 X" ++ x ++ " Y" ++ y ++ " Z" ++ z ++ newline)%string.

(** White space and the five axis letters. *)
Definition reserved : list ascii :=
  Str.whitespace ++ list_ascii_of_string "XYZIJ".

(** A text without white space and without axis letters, as the printed
    form of a number is. *)
Definition plain (s : string) : bool :=
  forallb (fun c => negb (Str.mem_ascii c reserved)) (list_ascii_of_string s).

(** ** Vocabulary for the properties of the driver and of the output *)

(** The line still has text after [line.strip()]. *)
Definition nonblank (line : string) : bool := Str.nonempty (Str.strip line).

(** The slot of the parse result that belongs to an axis letter. *)
Definition slot (letter : string) (c : coordinate) : option R :=
  if String.eqb letter "X" then cX c
  else if String.eqb letter "Y" then cY c
  else if String.eqb letter "Z" then cZ c
  else if String.eqb letter "I" then cI c
  else cJ c.

(** The amount that a shift command states for an axis; an axis that it
    does not state counts as 0. *)
Definition stated (c : option R) : R :=
  match c with
  | Some v => v
  | None => 0
  end.

(** Every location of the data list points into the store. *)
Definition valid_locs (h : heap) (data : list loc) : Prop :=
  Forall (fun l => (l < List.length h)%nat) data.

(** The two stores agree on the x and y entry of every point. *)
Definition same_xy (h h' : heap) : Prop :=
  forall l, px (deref h' l) = px (deref h l) /\
            py (deref h' l) = py (deref h l).

(** The rounded waypoint that a lookup reports for the point at [l]. *)
Definition target_of (h : heap) (l : loc) (zsafety : R) : extreme :=
  Target (py_round (px (deref h l)) 3) (py_round (py (deref h l)) 3)
         (py_round zsafety 3).

(** ** Vocabulary for the errors of the parser and for the lookups *)

(** The text that [parse_coordinates] hands to [float] for a word and an
    axis letter, when the word mentions the letter. *)
Definition axis_text (value letter : string) : option string :=
  if contains value letter
  then Some (Str.strip_set (letter ++ " ") value) else None.

(** [float] raises on the text. *)
Definition rejected (text : string) : bool :=
  match Dec.of_string text with
  | Some _ => false
  | None => true
  end.

(** The first rejected text of a word, the letters taken in the order in
    which the parser tests them. *)
Fixpoint first_rejected_in (value : string) (letters : list string)
  : option string :=
  match letters with
  | [] => None
  | letter :: rest =>
      match axis_text value letter with
      | Some text =>
          if rejected text then Some text else first_rejected_in value rest
      | None => first_rejected_in value rest
      end
  end.

(** The first rejected text of a line, the words taken from left to
    right. *)
Fixpoint first_rejected (values : list string) : option string :=
  match values with
  | [] => None
  | value :: rest =>
      match first_rejected_in value axis_letters with
      | Some text => Some text
      | None => first_rejected rest
      end
  end.



(** The scan that [get_extreme_value] makes for an axis name before it
    writes the safety height; [None] for [Zmin] and for any other name,
    where nothing is written. *)
Definition scan_for (axis : string) (h : heap) (data : list loc)
  : option (result loc) :=
  if String.eqb axis "Ymin" then Some (get_min_by_column h data 1)
  else if String.eqb axis "Xmin" then Some (get_min_by_column h data 0)
  else if String.eqb axis "Ymax" then Some (get_max_by_column h data 1)
  else if String.eqb axis "Xmax" then Some (get_max_by_column h data 0)
  else None.

(** A centre offset whose square is far below the largest binary
    floating-point number, so that [** 2] does not overflow. *)
Definition squares_safely (i : R) : Prop := Rabs i <= 10 ^ 150.

(** * Properties *)

(** ** Deciding comparisons of real numbers *)

Lemma Rleb_true (x y : R) : x <= y -> Rleb x y = true.
Proof. intros H. unfold Rleb. destruct (Rle_dec x y); [reflexivity | contradiction]. Qed.

Lemma Rleb_false (x y : R) : y < x -> Rleb x y = false.
Proof. intros H. unfold Rleb. destruct (Rle_dec x y); [lra | reflexivity]. Qed.


Lemma Rltb_false (x y : R) : y <= x -> Rltb x y = false.
Proof. intros H. unfold Rltb. destruct (Rlt_dec x y); [lra | reflexivity]. Qed.

Lemma Rzerob_true (x : R) : x = 0 -> Rzerob x = true.
Proof. intros H. unfold Rzerob. destruct (Req_dec_T x 0); [reflexivity | contradiction]. Qed.

Lemma Rzerob_false (x : R) : x <> 0 -> Rzerob x = false.
Proof. intros H. unfold Rzerob. destruct (Req_dec_T x 0); [contradiction | reflexivity]. Qed.

(** ** Rounding *)

Lemma round_half_even_near (x : R) (z : Z) :
  IZR z - 1 / 2 < x < IZR z + 1 / 2 -> round_half_even x = z.
Proof.
  intros [Hlo Hhi]. unfold round_half_even.
  destruct (Rle_dec (IZR z) x) as [Hge | Hlt].
  - rewrite (Zfloor_eq z) by lra.
    destruct (Rlt_dec (x - IZR z) (1 / 2)); [reflexivity | lra].
  - assert (Hf : Zfloor x = (z - 1)%Z).
    { apply Zfloor_eq. rewrite minus_IZR. lra. }
    rewrite Hf, minus_IZR.
    destruct (Rlt_dec (x - (IZR z - 1)) (1 / 2)); [lra |].
    destruct (Rlt_dec (1 / 2) (x - (IZR z - 1))); [lia | lra].
Qed.

Lemma round_half_even_IZR (z : Z) : round_half_even (IZR z) = z.
Proof. apply round_half_even_near. lra. Qed.




(** The rounded value is within one half of the argument. *)
Lemma round_half_even_dist (x : R) :
  - (1 / 2) <= IZR (round_half_even x) - x <= 1 / 2.
Proof.
  pose proof (Zfloor_bound x) as [Hlo Hhi]. unfold round_half_even.
  destruct (Rlt_dec _ _) as [H1 | H1]; [lra |].
  destruct (Rlt_dec _ _) as [H2 | H2]; [rewrite plus_IZR; lra |].
  destruct (Z.even _); [| rewrite plus_IZR]; lra.
Qed.

Lemma py_round_near (x : R) (ndigits : nat) (z : Z) :
  IZR z - 1 / 2 < x * 10 ^ ndigits < IZR z + 1 / 2 ->
  py_round x ndigits = IZR z / 10 ^ ndigits.
Proof. intros H. unfold py_round. now rewrite (round_half_even_near _ z). Qed.

Lemma py_round_0_IZR (x : R) : py_round x 0 = IZR (round_half_even x).
Proof.
  unfold py_round. simpl. rewrite Rmult_1_r. unfold Rdiv. rewrite Rinv_1. lra.
Qed.

Lemma py_int_IZR (z : Z) : py_int (IZR z) = z.
Proof.
  unfold py_int. destruct (Rle_dec 0 (IZR z)).
  - apply ZfloorZ.
  - unfold Zceil. rewrite <- opp_IZR, ZfloorZ. lia.
Qed.

Lemma degrees_0 : degrees 0 = 0.
Proof. unfold degrees. lra. Qed.

Lemma degrees_half_PI : degrees (PI / 2) = 90.
Proof. unfold degrees. pose proof PI_neq0. field. assumption. Qed.

Lemma degrees_PI : degrees PI = 180.
Proof. unfold degrees. pose proof PI_neq0. field. assumption. Qed.



Lemma sqrt_of_square (x r : R) : 0 <= r -> x = r * r -> sqrt x = r.
Proof. intros Hr ->. now apply sqrt_square. Qed.

(** ** Classification *)

Lemma find_zero_prefix (s sub : string) :
  Str.find s sub = 0%Z -> substring 0 (String.length sub) s = sub.
Proof.
  unfold Str.find. destruct (index 0 sub s) as [n |] eqn:E; [| discriminate].
  intros H. assert (n = 0%nat) by lia. subst n.
  now apply index_correct1 in E.
Qed.

(** Whatever a non-empty line says, [is_move] answers with a truthy value:
    [find] yields [-1] when the word is absent, and [-1] is truthy; it
    yields [0], the only falsy answer, for at most one of the two words. *)
Lemma is_move_truthy (command : string) :
  Str.nonempty command = true -> truthy (is_move command) = true.
Proof.
  intros Hne. unfold is_move. rewrite Hne. unfold py_or.
  destruct (truthy (PyBool (-1 <? Str.find command "G00")%Z)) eqn:E1.
  - now rewrite E1, E1.
  - destruct (truthy (PyInt (Str.find command "G0 "))) eqn:E2.
    + now rewrite E2, E2.
    + destruct (truthy (PyBool (-1 <? Str.find command "G01")%Z)) eqn:E3.
      * now rewrite E3.
      * simpl in E2 |- *.
        apply negb_false_iff, Z.eqb_eq, find_zero_prefix in E2.
        apply negb_true_iff, Z.eqb_neq. intros E4.
        apply find_zero_prefix in E4. simpl String.length in E2, E4.
        rewrite E2 in E4. discriminate.
Qed.

(** No non-empty line ever reaches the arc or the shift branch of the
    driver. *)
Lemma process_line_is_linear (st : tracker) (line : string) :
  Str.nonempty (Str.strip line) = true ->
  process_line st line =
    (p <- handle_linear_move (Str.strip line)
            (previous_coordinates st) (shift st) ;;
     Ok (mkTracker (data st ++ [p])
                   (refresh_previous (data st ++ [p]) (previous_coordinates st))
                   (shift st))).
Proof.
  intros H. unfold process_line. rewrite (is_move_truthy _ H).
  destruct (handle_linear_move _ _ _); reflexivity.
Qed.

Ltac rcbv :=
  cbv -[IZR Rplus Rminus Rmult Rdiv Ropp Rinv Rle_dec Rlt_dec Req_dec_T
        sqrt acos PI Zfloor Zceil pow Rleb Rltb Rzerob py_round py_int
        degrees].

Ltac req := repeat f_equal; lra.

(** C1 (the code departs from the claim): the line [X10 Y20] carries no
    motion word, yet [is_move] answers with the truthy [-1]; the driver
    treats the line as a linear move, emits the point (10, 20, 0) and moves
    the tracked position there. *)
Theorem C1_coordinate_only_line_is_processed :
  has_motion_token "X10 Y20" = false /\
  is_move "X10 Y20" = PyInt (-1) /\
  process_line initial "X10 Y20" =
    Ok (mkTracker [mkPoint 10 20 0] (mkPoint 10 20 0) origin).
Proof.
  split; [reflexivity |]. split; [reflexivity |].
  rcbv. req.
Qed.

(** The same happens to a line that is no command at all. *)
Example comment_line_emits_point :
  process_line (mkTracker [] (mkPoint 1 2 3) origin) "(comment)" =
    Ok (mkTracker [mkPoint 1 2 3] (mkPoint 1 2 3) origin).
Proof. rcbv. req. Qed.

(** ** Coordinate shift *)

(** The handler on its own does what the shift command asks for. *)
Lemma handle_coordinate_shift_G92_X5 :
  handle_coordinate_shift "G92 X5" origin = Ok (mkPoint (-5) 0 0).
Proof.
  rcbv. rewrite Rzerob_false by lra. req.
Qed.

Lemma shift_axis_absent (s : R) : shift_axis None s = s.
Proof. reflexivity. Qed.

Lemma shift_axis_present (v s : R) : shift_axis (Some v) s = s - v.
Proof.
  unfold shift_axis, Rzerob. destruct (Req_dec_T v 0); [subst; lra | reflexivity].
Qed.

Lemma handle_linear_move_after_shift :
  handle_linear_move "G01 X10" origin (mkPoint (-5) 0 0) = Ok (mkPoint 5 0 0).
Proof. rcbv. req. Qed.

(** C3 (the code departs from the claim): the driver never reaches the
    shift handler.  The line [G92 X5] is taken for a linear move: it emits
    the point (5, 0, 0) and leaves the shift at zero, and the following
    [G01 X10] resolves to x = 10. *)
Theorem C3_shift_line_is_processed_as_move :
  process_line initial "G92 X5" =
    Ok (mkTracker [mkPoint 5 0 0] (mkPoint 5 0 0) origin) /\
  create_dataset_from_input ["G92 X5"; "G01 X10"] =
    Ok [mkPoint 5 0 0; mkPoint 10 0 0].
Proof.
  split; rcbv; req.
Qed.

(** ** The angle of a point on an arc *)

Lemma get_arc_degrees_degenerate (p : point) (c : R * R) (radius : R) :
  radius <= 0 -> get_arc_degrees p c radius = Ok 0.
Proof. intros H. unfold get_arc_degrees. now rewrite Rleb_true. Qed.

Lemma py_acos_ok (x : R) : -1 <= x <= 1 -> py_acos x = Ok (acos x).
Proof.
  intros [H1 H2]. unfold py_acos. now rewrite !Rleb_true.
Qed.


Lemma acos_m1 : acos (-1) = PI.
Proof. replace (-1) with (- (1)) by lra. rewrite acos_opp, acos_1. lra. Qed.

(** The angle once the rounded cosine is known to be [k / 1000]. *)
Lemma get_arc_degrees_value (p : point) (c : R * R) (radius : R) (k : Z) :
  0 < radius ->
  IZR k - 1 / 2 < (px p - fst c) / radius * 1000 < IZR k + 1 / 2 ->
  (-1000 <= k <= 1000)%Z ->
  get_arc_degrees p c radius =
    Ok (py_round
          (degrees (if Rltb (py p - snd c) 0
                    then 2 * PI - acos (IZR k / 1000)
                    else acos (IZR k / 1000))) 0).
Proof.
  intros Hr Hk Hrange. unfold get_arc_degrees.
  rewrite Rleb_false by assumption.
  rewrite (py_round_near _ 3 k) by (simpl pow; lra).
  replace (10 ^ 3) with 1000 by (simpl; lra).
  rewrite py_acos_ok; [reflexivity |].
  destruct Hrange as [H1 H2]. apply IZR_le in H1, H2. lra.
Qed.

Lemma py_round_whole (z : Z) : py_round (IZR z) 0 = IZR z.
Proof. now rewrite py_round_0_IZR, round_half_even_IZR. Qed.

(** On the positive x axis of the circle the angle is 0. *)
Lemma get_arc_degrees_east (p : point) (c : R * R) (radius : R) :
  0 < radius -> px p - fst c = radius -> 0 <= py p - snd c ->
  get_arc_degrees p c radius = Ok 0.
Proof.
  intros Hr Hx Hy.
  rewrite (get_arc_degrees_value p c radius 1000); [| assumption | | lia].
  - rewrite Rltb_false by assumption.
    replace (1000 / 1000) with 1 by lra.
    now rewrite acos_1, degrees_0, (py_round_whole 0).
  - rewrite Hx. replace (radius / radius) with 1 by (field; lra). lra.
Qed.

(** A point whose x offset rounds to a zero cosine and that lies above the
    centre is given the angle 90. *)
Lemma get_arc_degrees_north (p : point) (c : R * R) (radius : R) :
  0 < radius ->
  - (1 / 2) < (px p - fst c) / radius * 1000 < 1 / 2 ->
  0 <= py p - snd c ->
  get_arc_degrees p c radius = Ok 90.
Proof.
  intros Hr Hx Hy.
  rewrite (get_arc_degrees_value p c radius 0); [| assumption | lra | lia].
  rewrite Rltb_false by assumption.
  replace (0 / 1000) with 0 by lra.
  now rewrite acos_0, degrees_half_PI, (py_round_whole 90).
Qed.

(** On the negative x axis of the circle the angle is 180. *)
Lemma get_arc_degrees_west (p : point) (c : R * R) (radius : R) :
  0 < radius -> px p - fst c = - radius -> 0 <= py p - snd c ->
  get_arc_degrees p c radius = Ok 180.
Proof.
  intros Hr Hx Hy.
  rewrite (get_arc_degrees_value p c radius (-1000)); [| assumption | | lia].
  - rewrite Rltb_false by assumption.
    replace (-1000 / 1000) with (-1) by lra.
    now rewrite acos_m1, degrees_PI, (py_round_whole 180).
  - rewrite Hx. replace (- radius / radius) with (-1) by (field; lra). lra.
Qed.






(** ** The arc handler *)

Lemma collect_crossings_filter (arc_start arc_end : R) (center : R * R)
    (radius z : R) :
  collect_crossings crossing_angles arc_start arc_end
    [None;
     Some (mkPoint (fst center) (snd center + radius) z);
     Some (mkPoint (fst center - radius) (snd center) z);
     Some (mkPoint (fst center) (snd center - radius) z);
     Some (mkPoint (fst center + radius) (snd center) z)] =
  map (fun a => cardinal_point a center radius z)
      (filter (fun a => in_range a (py_int arc_start) (py_int arc_end))
              crossing_angles).
Proof.
  unfold crossing_angles. cbn [collect_crossings filter].
  destruct (in_range 90 _ _), (in_range 180 _ _), (in_range 270 _ _),
           (in_range 360 _ _); reflexivity.
Qed.

(** The handler, once the line is parsed and both centre offsets are
    there: the two angles are taken in the order that the direction
    dictates, the end is moved past the start, and the crossing angles in
    the whole-degree range between them contribute their points before the
    endpoint. *)
Lemma handle_arc_move_ij_parsed (line : string) (previous shift : point)
    (c : coordinate) (i j : R) :
  parse_coordinates line = Ok c -> cI c = Some i -> cJ c = Some j ->
  let xyz := fxyz (fill_coordinates c previous shift) in
  let center := (px previous + i, py previous + j) in
  let radius := sqrt (i ^ 2 + j ^ 2) in
  handle_arc_move_ij line previous shift =
    match arc_direction line with
    | None => Ok []
    | Some d =>
        arc_start <- get_arc_degrees
                       (match d with CW => xyz | CCW => previous end)
                       center radius ;;
        arc_end <- get_arc_degrees
                     (match d with CW => previous | CCW => xyz end)
                     center radius ;;
        let arc_end :=
          if Rltb (arc_end - arc_start) 0 then arc_end + 360 else arc_end in
        Ok (map (fun a => cardinal_point a center radius (pz xyz))
                (filter (fun a => in_range a (py_int arc_start) (py_int arc_end))
                        crossing_angles) ++ [xyz])
    end.
Proof.
  intros Hp Hi Hj xyz center radius.
  unfold handle_arc_move_ij, arc_direction. rewrite Hp. cbn [bind].
  cbn [fI fJ fill_coordinates]. rewrite Hi, Hj. cbn [pow_operand bind].
  fold xyz. fold radius. fold center.
  destruct ((-1 <? Str.find line "G02")%Z || (-1 <? Str.find line "G2 ")%Z).
  - destruct (get_arc_degrees xyz center radius) as [s | e]; [| reflexivity].
    cbn [bind].
    destruct (get_arc_degrees previous center radius) as [e0 | e];
      [| reflexivity].
    cbn [bind]. now rewrite <- collect_crossings_filter.
  - destruct ((-1 <? Str.find line "G03")%Z || (-1 <? Str.find line "G3 ")%Z).
    + destruct (get_arc_degrees previous center radius) as [s | e];
        [| reflexivity].
      cbn [bind].
      destruct (get_arc_degrees xyz center radius) as [e0 | e];
        [| reflexivity].
      cbn [bind]. now rewrite <- collect_crossings_filter.
    + reflexivity.
Qed.

(** C4 (as amended): a crossing angle a in 90, 180, 270, 360 contributes
    its point exactly when int(arc_start) <= a < int(arc_end), where
    arc_start and arc_end are the angles that [get_arc_degrees] has rounded
    to whole degrees (from a cosine rounded to three decimals), the end
    moved up by 360 when it is below the start: the result is the list of
    the points of the crossing angles in that range, in ascending order,
    followed by the endpoint. *)
Theorem C4_cardinals_by_whole_degrees (line : string) (previous shift : point)
    (c : coordinate) (i j : R) (d : direction) (a_previous a_endpoint : R) :
  parse_coordinates line = Ok c -> cI c = Some i -> cJ c = Some j ->
  arc_direction line = Some d ->
  let xyz := fxyz (fill_coordinates c previous shift) in
  let center := (px previous + i, py previous + j) in
  let radius := sqrt (i ^ 2 + j ^ 2) in
  0 < radius ->
  get_arc_degrees previous center radius = Ok a_previous ->
  get_arc_degrees xyz center radius = Ok a_endpoint ->
  let arc_start := match d with CW => a_endpoint | CCW => a_previous end in
  let arc_end0 := match d with CW => a_previous | CCW => a_endpoint end in
  let arc_end :=
    if Rltb (arc_end0 - arc_start) 0 then arc_end0 + 360 else arc_end0 in
  handle_arc_move_ij line previous shift =
    Ok (map (fun a => cardinal_point a center radius (pz xyz))
            (filter (fun a => in_range a (py_int arc_start) (py_int arc_end))
                    crossing_angles) ++ [xyz]).
Proof.
  intros Hp Hi Hj Hd xyz center radius Hr Hprev Hend arc_start arc_end0 arc_end.
  rewrite (handle_arc_move_ij_parsed line previous shift c i j Hp Hi Hj).
  rewrite Hd. fold xyz center radius.
  destruct d; rewrite Hprev, Hend; reflexivity.
Qed.

Lemma C4_cardinals_by_whole_degrees_witness :
  handle_arc_move_ij "G03 X-10 Y0 I-10 J0" (mkPoint 10 0 0) origin =
    Ok [mkPoint 0 10 0; mkPoint (-10) 0 0].
Proof.
  assert (Hrad : sqrt ((-10) ^ 2 + 0 ^ 2) = 10).
  { apply sqrt_of_square; simpl; lra. }
  rewrite (C4_cardinals_by_whole_degrees
             "G03 X-10 Y0 I-10 J0" (mkPoint 10 0 0) origin
             (mkCoordinate (Some (-10)) (Some 0) None (Some (-10)) (Some 0))
             (-10) 0 CCW 0 180).
  - rewrite Rltb_false by lra.
    rewrite (py_int_IZR 0), (py_int_IZR 180).
    cbn -[pow sqrt]. rewrite Hrad. req.
  - rcbv. req.
  - reflexivity.
  - reflexivity.
  - reflexivity.
  - rewrite Hrad. lra.
  - rewrite Hrad. apply get_arc_degrees_east; cbn; lra.
  - rewrite Hrad. apply get_arc_degrees_west; cbn; lra.
Defined.

(** For a point with a negative cosine the arccosine exceeds a quarter
    turn. *)
Lemma acos_negative (x : R) : -1 <= x < 0 -> PI / 2 < acos x.
Proof.
  intros [Hlo Hhi].
  pose proof (acos_bound x) as [Ha Hb].
  pose proof PI_RGT_0 as Hpi.
  destruct (Rle_dec (acos x) (PI / 2)) as [Hle | Hgt]; [| lra].
  assert (Hc : 0 <= cos (acos x)) by (apply cos_ge_0; lra).
  rewrite cos_acos in Hc by lra. lra.
Qed.

Lemma degrees_lt (a b : R) : a < b -> degrees a < degrees b.
Proof.
  intros H. unfold degrees. apply Rmult_lt_compat_r; [| exact H].
  pose proof PI_RGT_0. apply Rdiv_lt_0_compat; lra.
Qed.

(** C4 (as stated, refuted): the counter-clockwise arc
    [G03 X-0.004 Y10 I-10 J0] from (10, 0, 0) runs about (0, 0) with radius
    10 from 0 degrees to a little more than 90 degrees, so under the
    comparison of the real angles 90 qualifies; the code rounds the cosine
    -0.0004 to 0, obtains the end angle 90, and leaves the point (0, 10, 0)
    out. *)
Lemma C4_counterexample :
  Spec.qualifies 90
    (Spec.sweep CCW (mkPoint 10 0 0) (mkPoint (-0.004) 10 0) (0, 0) 10) /\
  handle_arc_move_ij "G03 X-0.004 Y10 I-10 J0" (mkPoint 10 0 0) origin =
    Ok [mkPoint (-0.004) 10 0] /\
  ~ In (cardinal_point 90 (0, 0) 10 0) [mkPoint (-0.004) 10 0].
Proof.
  split; [| split].
  - unfold Spec.qualifies, Spec.sweep, Spec.angle, Spec.clamp.
    cbn [px py fst snd].
    rewrite (Rltb_false (0 - 0) 0) by lra.
    rewrite (Rltb_false (10 - 0) 0) by lra.
    rewrite (Rltb_false ((10 - 0) / 10) (-1)) by lra.
    rewrite (Rltb_false 1 ((10 - 0) / 10)) by lra.
    rewrite (Rltb_false ((-0.004 - 0) / 10) (-1)) by lra.
    rewrite (Rltb_false 1 ((-0.004 - 0) / 10)) by lra.
    replace ((10 - 0) / 10) with 1 by lra.
    rewrite acos_1, degrees_0.
    assert (H : 90 < degrees (acos ((-0.004 - 0) / 10))).
    { rewrite <- degrees_half_PI. apply degrees_lt, acos_negative. lra. }
    rewrite Rltb_false by lra. cbn [fst snd]. lra.
  - assert (Hrad : sqrt ((-10) ^ 2 + 0 ^ 2) = 10).
    { apply sqrt_of_square; simpl; lra. }
    rewrite (handle_arc_move_ij_parsed
               "G03 X-0.004 Y10 I-10 J0" (mkPoint 10 0 0) origin
               (mkCoordinate (Some (-0.004)) (Some 10) None (Some (-10)) (Some 0))
               (-10) 0); [| rcbv; req | reflexivity | reflexivity].
    replace (arc_direction "G03 X-0.004 Y10 I-10 J0") with (Some CCW)
      by reflexivity.
    rewrite Hrad.
    rewrite get_arc_degrees_east by (cbn; lra). cbn [bind].
    rewrite get_arc_degrees_north by (cbn; lra). cbn [bind].
    rewrite Rltb_false by lra.
    rewrite (py_int_IZR 0), (py_int_IZR 90).
    cbn -[pow sqrt]. req.
  - cbn. intros [H | []]. injection H as Hx _. lra.
Qed.

(** ** The full circle of the specification's example *)

Lemma handle_arc_move_ij_full_circle :
  handle_arc_move_ij "G02 X10 Y0 I-10 J0" (mkPoint 10 0 0) origin =
    Ok [mkPoint 10 0 0].
Proof.
  assert (Hrad : sqrt ((-10) ^ 2 + 0 ^ 2) = 10).
  { apply sqrt_of_square; simpl; lra. }
  rewrite (handle_arc_move_ij_parsed
             "G02 X10 Y0 I-10 J0" (mkPoint 10 0 0) origin
             (mkCoordinate (Some 10) (Some 0) None (Some (-10)) (Some 0))
             (-10) 0); [| rcbv; req | reflexivity | reflexivity].
  replace (arc_direction "G02 X10 Y0 I-10 J0") with (Some CW) by reflexivity.
  rewrite Hrad.
  rewrite !get_arc_degrees_east by (cbn; lra). cbn [bind].
  rewrite Rltb_false by lra.
  rewrite (py_int_IZR 0).
  cbn -[pow sqrt]. req.
Qed.

(** C2 (the code departs from the claim): on [G02 X10 Y0 I-10 J0] from
    (10, 0, 0) with zero shift the arc handler returns the endpoint
    (10, 0, 0) alone.  Start and end angle are both 0 and the end is moved
    up by 360 only when it is strictly below the start, so the points
    (0, 10), (-10, 0) and (0, -10) of the full circle are missing.  The
    driver, started at (10, 0, 0), takes the line for a linear move and
    also collects the endpoint alone. *)
Theorem C2_full_circle_loses_cardinal_points :
  handle_arc_move_ij "G02 X10 Y0 I-10 J0" (mkPoint 10 0 0) origin =
    Ok [mkPoint 10 0 0] /\
  (forall p, In p [mkPoint 0 10 0; mkPoint (-10) 0 0; mkPoint 0 (-10) 0] ->
     ~ In p [mkPoint 10 0 0]) /\
  process_line (mkTracker [] (mkPoint 10 0 0) origin) "G02 X10 Y0 I-10 J0" =
    Ok (mkTracker [mkPoint 10 0 0] (mkPoint 10 0 0) origin).
Proof.
  split; [exact handle_arc_move_ij_full_circle |]. split.
  - intros p [<- | [<- | [<- | []]]] [H | []];
      apply (f_equal px) in H; cbn [px] in H; lra.
  - rcbv. req.
Qed.

(** ** Degenerate arcs *)

Lemma handle_arc_move_ij_degenerate (line : string) (previous shift : point)
    (c : coordinate) (i j : R) (d : direction) :
  parse_coordinates line = Ok c -> cI c = Some i -> cJ c = Some j ->
  arc_direction line = Some d ->
  sqrt (i ^ 2 + j ^ 2) <= 0 ->
  handle_arc_move_ij line previous shift =
    Ok [fxyz (fill_coordinates c previous shift)].
Proof.
  intros Hp Hi Hj Hd Hr.
  rewrite (handle_arc_move_ij_parsed line previous shift c i j Hp Hi Hj).
  rewrite Hd, !get_arc_degrees_degenerate by assumption. cbn [bind].
  rewrite Rltb_false by lra. rewrite (py_int_IZR 0). reflexivity.
Qed.

(** C5 (as amended): when the computed radius is not positive, both angles
    are 0, no crossing angle qualifies, and the arc handler returns exactly
    one point, the resolved endpoint. *)
Theorem C5_degenerate_arc_yields_endpoint (line : string)
    (previous shift : point) (c : coordinate) (i j : R) (d : direction) :
  parse_coordinates line = Ok c -> cI c = Some i -> cJ c = Some j ->
  arc_direction line = Some d ->
  sqrt (i ^ 2 + j ^ 2) <= 0 ->
  handle_arc_move_ij line previous shift =
    Ok [fxyz (fill_coordinates c previous shift)].
Proof. exact (handle_arc_move_ij_degenerate line previous shift c i j d). Qed.

Lemma parse_G02_X5_Y5_I0_J0 :
  parse_coordinates "G02 X5 Y5 I0 J0" =
    Ok (mkCoordinate (Some 5) (Some 5) None (Some 0) (Some 0)).
Proof. rcbv. req. Qed.

Lemma radius_zero : sqrt (0 ^ 2 + 0 ^ 2) <= 0.
Proof. rewrite (sqrt_of_square _ 0); simpl; lra. Qed.

Lemma C5_degenerate_arc_yields_endpoint_witness :
  handle_arc_move_ij "G02 X5 Y5 I0 J0" origin origin =
    Ok [fxyz (fill_coordinates
                (mkCoordinate (Some 5) (Some 5) None (Some 0) (Some 0))
                origin origin)].
Proof.
  apply (C5_degenerate_arc_yields_endpoint
           "G02 X5 Y5 I0 J0" origin origin
           (mkCoordinate (Some 5) (Some 5) None (Some 0) (Some 0)) 0 0 CW).
  - exact parse_G02_X5_Y5_I0_J0.
  - reflexivity.
  - reflexivity.
  - reflexivity.
  - exact radius_zero.
Defined.

(** C5 (as stated, refuted): [G02 X5 Y5 I0 J0] has radius 0 and the
    handler returns its endpoint (5, 5, 0), not the empty sequence. *)
Lemma C5_counterexample :
  sqrt (0 ^ 2 + 0 ^ 2) <= 0 /\
  handle_arc_move_ij "G02 X5 Y5 I0 J0" origin origin = Ok [mkPoint 5 5 0] /\
  handle_arc_move_ij "G02 X5 Y5 I0 J0" origin origin <> Ok [].
Proof.
  assert (H : handle_arc_move_ij "G02 X5 Y5 I0 J0" origin origin =
              Ok [mkPoint 5 5 0]).
  { rewrite (handle_arc_move_ij_degenerate
               "G02 X5 Y5 I0 J0" origin origin
               (mkCoordinate (Some 5) (Some 5) None (Some 0) (Some 0)) 0 0 CW
               parse_G02_X5_Y5_I0_J0 eq_refl eq_refl eq_refl radius_zero).
    cbn. req. }
  split; [exact radius_zero |]. split; [exact H |].
  rewrite H. discriminate.
Qed.

(** ** Arcs without a centre offset *)

Lemma parse_value_keeps_I (c0 c1 : coordinate) (value : string) :
  contains value "I" = false ->
  parse_value c0 value = Ok c1 -> cI c1 = cI c0.
Proof.
  intros HI. unfold parse_value. rewrite HI.
  destruct (contains value "X"); [destruct (float _); [| discriminate] |];
  destruct (contains value "Y"); (try (destruct (float _); [| discriminate]));
  destruct (contains value "Z"); (try (destruct (float _); [| discriminate]));
  destruct (contains value "J"); (try (destruct (float _); [| discriminate]));
  cbn; intros H; injection H as <-; reflexivity.
Qed.

Lemma parse_value_keeps_J (c0 c1 : coordinate) (value : string) :
  contains value "J" = false ->
  parse_value c0 value = Ok c1 -> cJ c1 = cJ c0.
Proof.
  intros HJ. unfold parse_value. rewrite HJ.
  destruct (contains value "X"); [destruct (float _); [| discriminate] |];
  destruct (contains value "Y"); (try (destruct (float _); [| discriminate]));
  destruct (contains value "Z"); (try (destruct (float _); [| discriminate]));
  destruct (contains value "I"); (try (destruct (float _); [| discriminate]));
  cbn; intros H; injection H as <-; reflexivity.
Qed.

Lemma parse_values_keeps_I (values : list string) :
  forall c0 c1,
    forallb (fun value => negb (contains value "I")) values = true ->
    parse_values c0 values = Ok c1 -> cI c1 = cI c0.
Proof.
  induction values as [| value values IH]; intros c0 c1 Hall Hp.
  - injection Hp as <-. reflexivity.
  - cbn in Hall. apply andb_true_iff in Hall as [Hv Hall].
    apply negb_true_iff in Hv. cbn in Hp.
    destruct (parse_value c0 value) as [c |] eqn:E; [| discriminate].
    cbn in Hp. rewrite (IH c c1 Hall Hp).
    now apply parse_value_keeps_I with (value := value).
Qed.

Lemma parse_values_keeps_J (values : list string) :
  forall c0 c1,
    forallb (fun value => negb (contains value "J")) values = true ->
    parse_values c0 values = Ok c1 -> cJ c1 = cJ c0.
Proof.
  induction values as [| value values IH]; intros c0 c1 Hall Hp.
  - injection Hp as <-. reflexivity.
  - cbn in Hall. apply andb_true_iff in Hall as [Hv Hall].
    apply negb_true_iff in Hv. cbn in Hp.
    destruct (parse_value c0 value) as [c |] eqn:E; [| discriminate].
    cbn in Hp. rewrite (IH c c1 Hall Hp).
    now apply parse_value_keeps_J with (value := value).
Qed.

(** C9 (as amended): when the axis words of a line parse and no word
    mentions I, the slot of I is still [None] when the radius is computed
    and the arc handler raises a [TypeError] at the first [** 2]; when no
    word mentions J and the I offset, if there is one, is small enough for
    its square not to overflow, the handler raises the [TypeError] at the
    second [** 2].  It returns no points and does not report a
    [ValueError]. *)
Theorem C9_arc_without_center_offset (line : string) (previous shift : point)
    (c : coordinate) :
  parse_coordinates line = Ok c ->
  axis_absent "I" line = true \/
  (axis_absent "J" line = true /\
   forall i, cI c = Some i -> squares_safely i) ->
  (cI c = None \/ cJ c = None) /\
  handle_arc_move_ij line previous shift =
    Raise (TypeError
      "unsupported operand type(s) for ** or pow(): 'NoneType' and 'int'").
Proof.
  intros Hp Habs.
  assert (Hnone : cI c = None \/ cJ c = None).
  { destruct Habs as [H | [H _]]; [left | right].
    - exact (parse_values_keeps_I _ _ _ H Hp).
    - exact (parse_values_keeps_J _ _ _ H Hp). }
  split; [exact Hnone |].
  unfold handle_arc_move_ij. rewrite Hp. cbn [bind fI fJ fill_coordinates].
  destruct Hnone as [H | H]; rewrite H.
  - reflexivity.
  - destruct (cI c); reflexivity.
Qed.

Lemma ten_squares_safely : squares_safely (-10).
Proof.
  unfold squares_safely. rewrite Rabs_left by lra.
  pose proof (pow_R1_Rle 10 149 ltac:(lra)) as H.
  change (10 ^ 150) with (10 * 10 ^ 149). lra.
Qed.

Lemma C9_arc_without_center_offset_witness :
  handle_arc_move_ij "G02 X10 Y0 I-10" (mkPoint 10 0 0) origin =
    Raise (TypeError
      "unsupported operand type(s) for ** or pow(): 'NoneType' and 'int'").
Proof.
  apply (C9_arc_without_center_offset
           "G02 X10 Y0 I-10" (mkPoint 10 0 0) origin
           (mkCoordinate (Some 10) (Some 0) None (Some (-10)) None)).
  - rcbv. req.
  - right. split; [reflexivity |].
    intros i H. injection H as <-. exact ten_squares_safely.
Defined.

(** C9 (as stated, refuted): [G02 Xabc Y0 J5] has no I word, and the arc
    handler raises the [ValueError] of [float] on [abc], not a
    [TypeError]. *)
Lemma C9_counterexample :
  axis_absent "I" "G02 Xabc Y0 J5" = true /\
  handle_arc_move_ij "G02 Xabc Y0 J5" origin origin =
    Raise (ValueError "could not convert string to float: 'abc'").
Proof. split; reflexivity. Qed.

(** ** Axis words that are not numbers *)

Lemma float_raise (s : string) (e : exception) :
  float s = Raise e ->
  Dec.of_string s = None /\ e = ValueError (float_error s).
Proof.
  unfold float. destruct (Dec.of_string s); [discriminate |].
  intros H. injection H as <-. now split.
Qed.

Lemma float_none (s : string) :
  Dec.of_string s = None ->
  float s = Raise (ValueError (float_error s)).
Proof. intros H. unfold float. now rewrite H. Qed.

(** The text that [float] is given for a word and an axis letter. *)
Lemma strip_set_letter (letter value : string) :
  In letter axis_letters ->
  Str.strip_set (letter ++ " ") value =
    (if String.eqb letter "X" then Str.strip_set "X " value
     else if String.eqb letter "Y" then Str.strip_set "Y " value
     else if String.eqb letter "Z" then Str.strip_set "Z " value
     else if String.eqb letter "I" then Str.strip_set "I " value
     else Str.strip_set "J " value).
Proof.
  intros [<- | [<- | [<- | [<- | [<- | []]]]]]; reflexivity.
Qed.

Ltac parse_stage :=
  match goal with
  | |- context [if contains ?v ?l then _ else _] =>
      let E := fresh "E" in
      let F := fresh "F" in
      let s := eval cbn in (l ++ " ")%string in
      destruct (contains v l) eqn:E;
      [ destruct (float (Str.strip_set s v)) eqn:F | ];
      cbn [bind cX cY cZ cI cJ]
  end.

Ltac name_letter :=
  lazymatch goal with
  | F : float (Str.strip_set "X " _) = Raise _ |- _ =>
      exists "X"; apply float_raise in F; destruct F
  | F : float (Str.strip_set "Y " _) = Raise _ |- _ =>
      exists "Y"; apply float_raise in F; destruct F
  | F : float (Str.strip_set "Z " _) = Raise _ |- _ =>
      exists "Z"; apply float_raise in F; destruct F
  | F : float (Str.strip_set "I " _) = Raise _ |- _ =>
      exists "I"; apply float_raise in F; destruct F
  | F : float (Str.strip_set "J " _) = Raise _ |- _ =>
      exists "J"; apply float_raise in F; destruct F
  end.

(** An exception of [parse_value] is the one of a [float] call. *)
Lemma parse_value_raise (c0 : coordinate) (value : string) (e : exception) :
  parse_value c0 value = Raise e -> bad_word value e.
Proof.
  unfold parse_value, bad_word.
  repeat parse_stage; try discriminate;
    intros H; injection H as <-; name_letter;
    (split; [cbn; auto 10 | split; [assumption | split; assumption]]).
Qed.






Lemma process_lines_raises (lines : list string) (e : exception) :
  forall st line rest,
    (exists st', process_lines st lines = Ok st' /\
                 process_line st' line = Raise e) ->
    process_lines st (lines ++ line :: rest) = Raise e.
Proof.
  induction lines as [| l lines IH]; intros st line rest [st' [H1 H2]].
  - cbn in H1. injection H1 as <-. cbn. now rewrite H2.
  - cbn in H1 |- *. destruct (process_line st l) as [st1 |]; [| discriminate].
    cbn in H1 |- *. apply IH. now exists st'.
Qed.



Example first_rejected_takes_the_first :
  first_rejected (Str.split_space "G01 X1 Yabc Zdef") = Some "abc".
Proof. reflexivity. Qed.


(** ** The store under the extreme-value lookups *)

Lemma store_length (h : heap) (l : loc) (p : point) :
  List.length (store h l p) = List.length h.
Proof.
  revert l. induction h as [| q h IH]; intros [| l]; cbn; auto.
Qed.

Lemma deref_store_other (h : heap) (l l' : loc) (p : point) :
  l' <> l -> deref (store h l p) l' = deref h l'.
Proof.
  unfold deref. revert l l'.
  induction h as [| q h IH]; intros [| l] [| l'] Hne; cbn; auto.
  contradiction.
Qed.

Lemma deref_store_same (h : heap) (l : loc) (p : point) :
  (l < List.length h)%nat -> deref (store h l p) l = p.
Proof.
  unfold deref. revert l.
  induction h as [| q h IH]; intros [| l] Hl; cbn in *; try lia; auto.
  apply IH. lia.
Qed.

Lemma store_out_of_range (h : heap) (l : loc) (p : point) :
  (List.length h <= l)%nat -> store h l p = h.
Proof.
  revert l. induction h as [| q h IH]; intros [| l] Hl; cbn in *; try lia; auto.
  f_equal. apply IH. lia.
Qed.

Lemma select_by_In (better : R -> R -> bool) (key : loc -> R)
    (rest : list loc) :
  forall best, In (select_by better key best rest) (best :: rest).
Proof.
  induction rest as [| item rest IH]; intros best; cbn [select_by].
  - now left.
  - destruct (better _ _).
    + right. apply IH.
    + destruct (IH best) as [H | H]; [now left | right; now right].
Qed.

Lemma get_min_by_column_In (h : heap) (data : list loc) (col : nat) (l : loc) :
  get_min_by_column h data col = Ok l -> In l data.
Proof.
  destruct data as [| first rest]; [discriminate |].
  intros H. injection H as <-. apply select_by_In.
Qed.

Lemma get_max_by_column_In (h : heap) (data : list loc) (col : nat) (l : loc) :
  get_max_by_column h data col = Ok l -> In l data.
Proof.
  destruct data as [| first rest]; [discriminate |].
  intros H. injection H as <-. apply select_by_In.
Qed.

Lemma override_z_frame (h : heap) (l0 : loc) (data : list loc) (zsafety : R) :
  In l0 data -> z_overwritten h (snd (override_z h l0 zsafety)) data zsafety.
Proof.
  intros Hin. unfold override_z. cbn [snd].
  set (p := mkPoint (px (deref h l0)) (py (deref h l0)) zsafety).
  destruct (Nat.lt_ge_cases l0 (List.length h)) as [Hlt | Hge].
  - split.
    + intros l. destruct (Nat.eq_dec l l0) as [-> | Hne].
      * rewrite deref_store_same by assumption. now split.
      * rewrite deref_store_other by assumption. now split.
    + right. exists l0. split; [assumption |]. split.
      * now rewrite deref_store_same.
      * intros l Hne. now apply deref_store_other.
  - rewrite store_out_of_range by assumption. split; [now split | now left].
Qed.

Lemma select_by_ext (better : R -> R -> bool) (key key' : loc -> R)
    (rest : list loc) :
  (forall l, key l = key' l) ->
  forall best, select_by better key best rest = select_by better key' best rest.
Proof.
  intros Hk. induction rest as [| item rest IH]; intros best; cbn [select_by].
  - reflexivity.
  - rewrite !Hk. destruct (better _ _); apply IH.
Qed.

(** The x and y scans that follow a write of the safety height select the
    same locations as they would have without it. *)
Lemma xy_scans_after_overwrite (h h' : heap) (data : list loc) (zsafety : R)
    (column_index : nat) :
  z_overwritten h h' data zsafety ->
  (column_index < 2)%nat ->
  get_min_by_column h' data column_index = get_min_by_column h data column_index /\
  get_max_by_column h' data column_index = get_max_by_column h data column_index.
Proof.
  intros [Hxy _] Hc.
  assert (Hk : forall l, column column_index (deref h' l) =
                         column column_index (deref h l)).
  { intros l. destruct (Hxy l) as [Hx Hy].
    destruct column_index as [| [| n]]; cbn [column]; [assumption .. | lia]. }
  unfold get_min_by_column, get_max_by_column.
  destruct data as [| first rest]; [now split |].
  split; f_equal; now apply select_by_ext.
Qed.

(** C8 (as amended): the scans [get_min_by_column] and [get_max_by_column]
    and the [Zmin] lookup leave every point as it is.  The lookups for
    [Ymin], [Xmin], [Ymax] and [Xmax] write the safety height into the z
    entry of the point that their scan selects, in place: afterwards that
    point has its old x and y and the safety height as z, and every other
    point is unchanged. *)
Theorem C8_extreme_value_frame (axis : string) (data : list loc)
    (zsafety : R) (h h' : heap) (r : extreme) :
  get_extreme_value axis data zsafety h = Ok (r, h') ->
  match scan_for axis h data with
  | None => h' = h
  | Some scan =>
      exists l,
        scan = Ok l /\ In l data /\
        h' = store h l (mkPoint (px (deref h l)) (py (deref h l)) zsafety) /\
        ((l < List.length h)%nat ->
           deref h' l = mkPoint (px (deref h l)) (py (deref h l)) zsafety) /\
        (forall l', l' <> l -> deref h' l' = deref h l')
  end.
Proof.
  assert (Hw : forall l,
            In l data ->
            Ok (override_z h l zsafety) = Ok (r, h') ->
            exists l0,
              Ok l = Ok l0 /\ In l0 data /\
              h' = store h l0
                     (mkPoint (px (deref h l0)) (py (deref h l0)) zsafety) /\
              ((l0 < List.length h)%nat ->
                 deref h' l0 =
                   mkPoint (px (deref h l0)) (py (deref h l0)) zsafety) /\
              (forall l', l' <> l0 -> deref h' l' = deref h l')).
  { intros l Hin H. unfold override_z in H. injection H as _ <-.
    exists l. split; [reflexivity |]. split; [assumption |].
    split; [reflexivity |]. split.
    - intros Hl. now apply deref_store_same.
    - intros l' Hne. now apply deref_store_other. }
  unfold get_extreme_value, scan_for.
  destruct (String.eqb axis "Zmin") eqn:EZ.
  { apply String.eqb_eq in EZ. subst axis. cbn [String.eqb Ascii.eqb Bool.eqb].
    destruct (get_min_by_column h data 2); [| discriminate].
    cbn [bind]. intros H. now injection H as _ <-. }
  destruct (String.eqb axis "Ymin").
  { destruct (get_min_by_column h data 1) as [l |] eqn:E; [| discriminate].
    cbn [bind]. apply Hw. exact (get_min_by_column_In _ _ _ _ E). }
  destruct (String.eqb axis "Xmin").
  { destruct (get_min_by_column h data 0) as [l |] eqn:E; [| discriminate].
    cbn [bind]. apply Hw. exact (get_min_by_column_In _ _ _ _ E). }
  destruct (String.eqb axis "Ymax").
  { destruct (get_max_by_column h data 1) as [l |] eqn:E; [| discriminate].
    cbn [bind]. apply Hw. exact (get_max_by_column_In _ _ _ _ E). }
  destruct (String.eqb axis "Xmax").
  { destruct (get_max_by_column h data 0) as [l |] eqn:E; [| discriminate].
    cbn [bind]. apply Hw. exact (get_max_by_column_In _ _ _ _ E). }
  intros H. now injection H as _ <-.
Qed.

Lemma py_round_3_whole (z : Z) : py_round (IZR z) 3 = IZR z.
Proof.
  rewrite (py_round_near _ 3 (z * 1000)).
  - rewrite mult_IZR. simpl pow. field.
  - rewrite mult_IZR. simpl pow. lra.
Qed.

Lemma get_extreme_value_Ymin_single :
  get_extreme_value "Ymin" [0%nat] 25 [mkPoint 1 2 3] =
    Ok (Target 1 2 25, [mkPoint 1 2 25]).
Proof.
  cbv [get_extreme_value String.eqb Ascii.eqb Bool.eqb get_min_by_column
       select_by bind override_z store deref nth px py pz].
  now rewrite (py_round_3_whole 1), (py_round_3_whole 2), (py_round_3_whole 25).
Qed.

Lemma C8_extreme_value_frame_witness :
  exists l,
    get_min_by_column [mkPoint 1 2 3] [0%nat] 1 = Ok l /\
    [mkPoint 1 2 25] =
      store [mkPoint 1 2 3] l
        (mkPoint (px (deref [mkPoint 1 2 3] l)) (py (deref [mkPoint 1 2 3] l))
                 25).
Proof.
  pose proof (C8_extreme_value_frame "Ymin" [0%nat] 25
                [mkPoint 1 2 3] [mkPoint 1 2 25] (Target 1 2 25)
                get_extreme_value_Ymin_single) as H.
  cbn [scan_for String.eqb Ascii.eqb Bool.eqb] in H.
  destruct H as [l [H1 [_ [H2 _]]]].
  exists l. split; assumption.
Defined.

(** C8 (as stated, refuted): looking up [Ymin] in a data list that holds
    the single point (1, 2, 3) with safety height 25 leaves the point
    (1, 2, 25) in its place. *)
Lemma C8_counterexample :
  get_extreme_value "Ymin" [0%nat] 25 [mkPoint 1 2 3] =
    Ok (Target 1 2 25, [mkPoint 1 2 25]) /\
  deref [mkPoint 1 2 25] 0%nat <> deref [mkPoint 1 2 3] 0%nat.
Proof.
  split; [exact get_extreme_value_Ymin_single |].
  cbn. intros H. injection H as H. lra.
Qed.

(** ** Safety height *)

(** C10: the safety height that is used is the input rounded to the
    nearest whole number (at most one half away from it), whenever that
    whole number is positive; when the rounded number is zero or negative,
    25 is used instead and a diagnostic is issued. *)
Theorem C10_zsafety_is_rounded (zsafety : R) :
  let r := round_half_even zsafety in
  - (1 / 2) <= IZR r - zsafety <= 1 / 2 /\
  ((0 < r)%Z -> convert_input_zsafety zsafety = (IZR r, None)) /\
  ((r <= 0)%Z ->
     convert_input_zsafety zsafety =
       (25, Some "Error: Number invalid for safety height. Defaulting to Z=25.")).
Proof.
  intros r. split; [apply round_half_even_dist |].
  unfold convert_input_zsafety. rewrite py_round_0_IZR. fold r.
  split; intros Hr.
  - rewrite Rleb_false; [reflexivity |]. now apply IZR_lt.
  - rewrite Rleb_true; [reflexivity |]. now apply IZR_le.
Qed.

Lemma C10_zsafety_is_rounded_witness :
  convert_input_zsafety 12.6 = (13, None).
Proof.
  destruct (C10_zsafety_is_rounded 12.6) as [_ [H _]].
  rewrite (round_half_even_near 12.6 13) in H by lra.
  apply H. lia.
Defined.

Example convert_input_zsafety_negative :
  convert_input_zsafety (-5) =
    (25, Some "Error: Number invalid for safety height. Defaulting to Z=25.").
Proof.
  unfold convert_input_zsafety.
  rewrite (py_round_whole (-5)). now rewrite Rleb_true by lra.
Qed.

Example convert_input_zsafety_small :
  convert_input_zsafety 0.4 =
    (25, Some "Error: Number invalid for safety height. Defaulting to Z=25.").
Proof.
  unfold convert_input_zsafety.
  rewrite py_round_0_IZR, (round_half_even_near 0.4 0) by lra.
  now rewrite Rleb_true by lra.
Qed.

(** * Further properties of the program *)

(** ** The driver *)

Lemma nonempty_false (s : string) : Str.nonempty s = false -> s = "".
Proof. destruct s; [reflexivity | discriminate]. Qed.

Lemma refresh_previous_last (d : list point) (p : point) :
  refresh_previous d p = last d p.
Proof.
  unfold refresh_previous. destruct (rev d) as [| x l] eqn:E.
  - apply (f_equal (@rev point)) in E. rewrite rev_involutive in E.
    now subst d.
  - apply (f_equal (@rev point)) in E. rewrite rev_involutive in E.
    subst d. cbn [rev]. now rewrite last_last.
Qed.

Lemma process_line_cases (st : tracker) (line : string) :
  process_line st line =
    if nonblank line then
      p <- handle_linear_move (Str.strip line)
             (previous_coordinates st) (shift st) ;;
      Ok (mkTracker (data st ++ [p]) p (shift st))
    else
      Ok (mkTracker (data st) (last (data st) (previous_coordinates st))
                    (shift st)).
Proof.
  unfold nonblank. destruct (Str.nonempty (Str.strip line)) eqn:E.
  - rewrite (process_line_is_linear st line E).
    destruct (handle_linear_move _ _ _) as [p |]; [| reflexivity].
    cbn [bind]. rewrite refresh_previous_last, last_last. reflexivity.
  - apply nonempty_false in E. unfold process_line. rewrite E.
    cbn -[refresh_previous]. now rewrite refresh_previous_last.
Qed.

Lemma process_line_shape (st st' : tracker) (line : string) :
  process_line st line = Ok st' ->
  shift st' = shift st /\
  List.length (data st') =
    (List.length (data st) + (if nonblank line then 1 else 0))%nat /\
  previous_coordinates st' = last (data st') (previous_coordinates st).
Proof.
  rewrite process_line_cases. destruct (nonblank line).
  - destruct (handle_linear_move _ _ _) as [p |]; [| discriminate].
    cbn [bind]. intros H. injection H as <-. cbn.
    rewrite length_app, last_last. cbn. repeat split; lia.
  - intros H. injection H as <-. cbn. repeat split; lia.
Qed.

(** X1: one step of the driver.  A line with text is resolved as a linear
    move, whatever command it carries, and adds exactly one point, which
    becomes the tracked position; a blank line adds nothing.  The shift is
    kept in both cases. *)
Theorem X1_driver_step (st : tracker) (line : string) :
  process_line st line =
    if nonblank line then
      p <- handle_linear_move (Str.strip line)
             (previous_coordinates st) (shift st) ;;
      Ok (mkTracker (data st ++ [p]) p (shift st))
    else
      Ok (mkTracker (data st) (last (data st) (previous_coordinates st))
                    (shift st)).
Proof. exact (process_line_cases st line). Qed.

Lemma process_lines_shape (lines : list string) :
  forall st st',
    process_lines st lines = Ok st' ->
    previous_coordinates st = last (data st) origin ->
    shift st' = shift st /\
    List.length (data st') =
      (List.length (data st) + List.length (filter nonblank lines))%nat /\
    previous_coordinates st' = last (data st') origin.
Proof.
  induction lines as [| line lines IH]; intros st st' H Hinv.
  - injection H as <-. cbn. repeat split; [lia | assumption].
  - cbn [process_lines] in H.
    destruct (process_line st line) as [st1 |] eqn:E; [| discriminate].
    cbn [bind] in H.
    destruct (process_line_shape _ _ _ E) as [Hs [Hl Hp]].
    assert (Hinv1 : previous_coordinates st1 = last (data st1) origin).
    { rewrite Hp, Hinv. destruct (data st1) as [| x d] eqn:Ed.
      - destruct (data st); [reflexivity |]. cbn in Hl. lia.
      - clear. generalize x. induction d as [| y d IHd]; intros x0.
        + reflexivity.
        + cbn [last] in *. apply IHd. }
    destruct (IH st1 st' H Hinv1) as [Hs' [Hl' Hp']].
    split; [congruence |]. split; [| assumption].
    rewrite Hl', Hl. cbn [filter]. destruct (nonblank line); cbn; lia.
Qed.

(** X2: the data set of a whole file.  When [create_dataset_from_input]
    succeeds it returns exactly one point for every line that is not blank;
    the run ends with a zero shift, whatever shift commands the file
    contains, and with the last point as the tracked position. *)
Theorem X2_dataset_shape (lines : list string) (st : tracker) :
  process_lines initial lines = Ok st ->
  create_dataset_from_input lines = Ok (data st) /\
  List.length (data st) = List.length (filter nonblank lines) /\
  shift st = origin /\
  previous_coordinates st = last (data st) origin.
Proof.
  intros H. split.
  - unfold create_dataset_from_input. now rewrite H.
  - destruct (process_lines_shape lines initial st H eq_refl) as [Hs [Hl Hp]].
    repeat split; assumption.
Qed.

Lemma X2_dataset_shape_witness :
  create_dataset_from_input ["G92 X5"; ""; "G01 X10"] =
    Ok [mkPoint 5 0 0; mkPoint 10 0 0].
Proof.
  apply (X2_dataset_shape ["G92 X5"; ""; "G01 X10"]
           (mkTracker [mkPoint 5 0 0; mkPoint 10 0 0] (mkPoint 10 0 0) origin)).
  rcbv. req.
Defined.

(** X3: the first line that fails ends the run.  When the lines before it
    are processed and the line raises, [create_dataset_from_input] raises
    the same exception, whatever follows; no partial data is returned. *)
Theorem X3_first_failure_aborts (before after : list string) (line : string)
    (st : tracker) (e : exception) :
  process_lines initial before = Ok st ->
  process_line st line = Raise e ->
  create_dataset_from_input (before ++ line :: after) = Raise e.
Proof.
  intros H1 H2. unfold create_dataset_from_input.
  rewrite (process_lines_raises before e initial line after); [reflexivity |].
  now exists st.
Qed.

Lemma X3_first_failure_aborts_witness :
  create_dataset_from_input (["G01 X1"] ++ "G01 Xabc" :: ["G01 X2"]) =
    Raise (ValueError "could not convert string to float: 'abc'").
Proof.
  apply (X3_first_failure_aborts ["G01 X1"] ["G01 X2"] "G01 Xabc"
           (mkTracker [mkPoint 1 0 0] (mkPoint 1 0 0) origin)).
  - rcbv. req.
  - reflexivity.
Defined.

(** ** The parser *)

Lemma parse_value_slot (c0 c1 : coordinate) (value letter : string) :
  In letter axis_letters ->
  parse_value c0 value = Ok c1 ->
  (contains value letter = true -> slot letter c1 <> None) /\
  (contains value letter = false -> slot letter c1 = slot letter c0).
Proof.
  intros Hl. unfold parse_value.
  destruct Hl as [<- | [<- | [<- | [<- | [<- | []]]]]];
    repeat parse_stage; try discriminate;
    intros H; injection H as <-; cbn; split; intros; congruence.
Qed.

Lemma parse_values_slot (letter : string) (values : list string) :
  In letter axis_letters ->
  forall c0 c1,
    parse_values c0 values = Ok c1 ->
    (slot letter c1 = None <->
     slot letter c0 = None /\
     forallb (fun value => negb (contains value letter)) values = true).
Proof.
  intros Hl. induction values as [| value values IH]; intros c0 c1 H.
  - injection H as <-. cbn. tauto.
  - cbn [parse_values] in H.
    destruct (parse_value c0 value) as [c |] eqn:E; [| discriminate].
    cbn [bind] in H. rewrite (IH c c1 H). cbn [forallb].
    destruct (parse_value_slot c0 c value letter Hl E) as [Hyes Hno].
    destruct (contains value letter).
    + cbn. specialize (Hyes eq_refl). split; intros [H1 H2];
        [contradiction | discriminate].
    + cbn. rewrite (Hno eq_refl). tauto.
Qed.

(** X4: which slots the parser fills.  When a line parses, the slot of an
    axis letter holds a number exactly when some space-delimited word of
    the line mentions that letter. *)
Theorem X4_slot_filled_iff_letter_occurs (line letter : string)
    (c : coordinate) :
  In letter axis_letters ->
  parse_coordinates line = Ok c ->
  (slot letter c = None <-> axis_absent letter line = true).
Proof.
  intros Hl H. unfold parse_coordinates in H.
  rewrite (parse_values_slot letter _ Hl _ _ H). unfold axis_absent.
  destruct Hl as [<- | [<- | [<- | [<- | [<- | []]]]]]; cbn; tauto.
Qed.

Lemma X4_slot_filled_iff_letter_occurs_witness :
  slot "Z" (mkCoordinate (Some 10) (Some 20) None None None) = None <->
  axis_absent "Z" "G01 X10 Y20" = true.
Proof.
  apply (X4_slot_filled_iff_letter_occurs "G01 X10 Y20" "Z").
  - cbn. auto.
  - rcbv. req.
Defined.

(** ** Linear moves and shifts *)

(** X5: repeating a linear move changes nothing.  The point that a line
    resolves to is a fixed point of that line: resolved again from there,
    under the same shift, it gives the same point. *)
Theorem X5_linear_move_idempotent (line : string) (previous shift p : point) :
  handle_linear_move line previous shift = Ok p ->
  handle_linear_move line p shift = Ok p.
Proof.
  unfold handle_linear_move.
  destruct (parse_coordinates line) as [c |]; [| discriminate].
  cbn [bind]. intros H. injection H as <-. f_equal.
  unfold fill_coordinates, fill_axis. cbn.
  destruct (cX c), (cY c), (cZ c); reflexivity.
Qed.

Lemma X5_linear_move_idempotent_witness :
  handle_linear_move "G01 X10" (mkPoint 5 7 0) (mkPoint (-5) 0 0)
    = Ok (mkPoint 5 7 0).
Proof.
  apply (X5_linear_move_idempotent "G01 X10" (mkPoint 0 7 0)
           (mkPoint (-5) 0 0)).
  rcbv. req.
Defined.

(** X6: what a shift command does to the shift.  Every axis of the new
    shift is the old one minus the amount that the line states for it, an
    unstated axis counting as 0; the truthiness test on the stated value
    makes no difference, and I and J play no part. *)
Theorem X6_shift_subtracts_stated (line : string) (shift : point)
    (c : coordinate) :
  parse_coordinates line = Ok c ->
  handle_coordinate_shift line shift =
    Ok (mkPoint (px shift - stated (cX c)) (py shift - stated (cY c))
                (pz shift - stated (cZ c))).
Proof.
  intros H. unfold handle_coordinate_shift. rewrite H. cbn [bind].
  assert (Hax : forall o s, shift_axis o s = s - stated o).
  { intros [v |] s; [apply shift_axis_present | cbn; lra]. }
  now rewrite !Hax.
Qed.

Lemma X6_shift_subtracts_stated_witness :
  handle_coordinate_shift "G92 X0 Y2.5" (mkPoint 1 1 1) =
    Ok (mkPoint (1 - 0) (1 - 2.5) (1 - 0)).
Proof.
  rewrite (X6_shift_subtracts_stated "G92 X0 Y2.5" (mkPoint 1 1 1)
             (mkCoordinate (Some 0) (Some 2.5) None None None)).
  - reflexivity.
  - rcbv. req.
Defined.

(** ** Arcs *)

Lemma Ok_inj {A : Type} (a b : A) : Ok a = Ok b -> a = b.
Proof. congruence. Qed.

Lemma handle_arc_move_ij_ok (line : string) (previous shift : point)
    (pts : list point) :
  handle_arc_move_ij line previous shift = Ok pts ->
  exists c i j,
    parse_coordinates line = Ok c /\ cI c = Some i /\ cJ c = Some j.
Proof.
  unfold handle_arc_move_ij.
  destruct (parse_coordinates line) as [c |]; [| discriminate].
  cbn [bind fI fJ fill_coordinates].
  destruct (cI c) as [i |] eqn:Ei, (cJ c) as [j |] eqn:Ej;
    cbn [bind pow_operand]; try discriminate.
  intros _. exists c, i, j. repeat split; assumption.
Qed.

(** X8: the shape of what the arc handler returns.  A returned list is
    empty exactly when the line carries neither arc word; otherwise it is
    at most four quadrant points of the circle about the centre, at the
    height of the endpoint, followed by the resolved endpoint as its last
    element. *)
Theorem X8_arc_result_shape (line : string) (previous shift : point)
    (pts : list point) :
  handle_arc_move_ij line previous shift = Ok pts ->
  exists c i j,
    parse_coordinates line = Ok c /\ cI c = Some i /\ cJ c = Some j /\
    let xyz := fxyz (fill_coordinates c previous shift) in
    let center := (px previous + i, py previous + j) in
    let radius := sqrt (i ^ 2 + j ^ 2) in
    (arc_direction line = None /\ pts = []) \/
    (arc_direction line <> None /\
     exists cards,
       pts = cards ++ [xyz] /\
       (List.length cards <= 4)%nat /\
       forall p, In p cards ->
         exists a, In a crossing_angles /\
                   p = cardinal_point a center radius (pz xyz)).
Proof.
  intros H.
  destruct (handle_arc_move_ij_ok _ _ _ _ H) as [c [i [j [Hp [Hi Hj]]]]].
  exists c, i, j. split; [assumption |]. split; [assumption |].
  split; [assumption |]. intros xyz center radius.
  rewrite (handle_arc_move_ij_parsed line previous shift c i j Hp Hi Hj) in H.
  fold xyz center radius in H.
  destruct (arc_direction line) as [d |].
  - right. split; [discriminate |].
    destruct (get_arc_degrees _ center radius) as [s |]; [| discriminate].
    cbn [bind] in H.
    destruct (get_arc_degrees _ center radius) as [e |]; [| discriminate].
    cbn [bind] in H. apply Ok_inj in H. subst pts.
    eexists. split; [reflexivity |]. split.
    + rewrite length_map.
      apply Nat.le_trans with (List.length crossing_angles);
        [apply filter_length_le | cbn; lia].
    + intros p Hin. apply in_map_iff in Hin as [a [<- Ha]].
      apply filter_In in Ha as [Ha _]. now exists a.
  - left. injection H as <-. now split.
Qed.

Lemma X8_arc_result_shape_witness :
  exists c i j,
    parse_coordinates "G02 X10 Y0 I-10 J0" = Ok c /\
    cI c = Some i /\ cJ c = Some j.
Proof.
  destruct (X8_arc_result_shape "G02 X10 Y0 I-10 J0" (mkPoint 10 0 0) origin
              [mkPoint 10 0 0])
    as [c [i [j [H1 [H2 [H3 _]]]]]].
  - exact handle_arc_move_ij_full_circle.
  - exists c, i, j. split; [assumption | split; assumption].
Defined.

(** ** The scans for the extreme points *)

Lemma Rltb_elim (x y : R) :
  (Rltb x y = true -> x < y) /\ (Rltb x y = false -> y <= x).
Proof.
  unfold Rltb. destruct (Rlt_dec x y); split; intros; try discriminate; lra.
Qed.

Lemma select_by_first_least (key : loc -> R) (rest : list loc) :
  forall best,
    exists pre post,
      best :: rest = pre ++ select_by Rltb key best rest :: post /\
      (forall x, In x pre -> key (select_by Rltb key best rest) < key x) /\
      (forall x, In x post -> key (select_by Rltb key best rest) <= key x).
Proof.
  induction rest as [| item rest IH]; intros best; cbn [select_by].
  - exists [], []. repeat split; intros x [].
  - destruct (Rltb (key item) (key best)) eqn:E.
    + apply Rltb_elim in E as Hlt.
      destruct (IH item) as [pre [post [Hd [Hpre Hpost]]]].
      set (l := select_by Rltb key item rest) in *.
      exists (best :: pre), post. split; [cbn; now rewrite Hd |].
      split; [| assumption].
      intros x [<- | Hin]; [| now apply Hpre].
      destruct pre as [| y pre'].
      * cbn in Hd. injection Hd as Hl _. rewrite <- Hl. assumption.
      * cbn in Hd. injection Hd as Hy _. subst y.
        specialize (Hpre item (or_introl eq_refl)). lra.
    + apply Rltb_elim in E as Hge.
      destruct (IH best) as [pre [post [Hd [Hpre Hpost]]]].
      set (l := select_by Rltb key best rest) in *.
      destruct pre as [| y pre'].
      * cbn in Hd. injection Hd as Hl Hr.
        exists [], (item :: post). split; [cbn; now rewrite <- Hl, Hr |].
        split; [intros x [] |].
        intros x [<- | Hin]; [rewrite <- Hl; lra | now apply Hpost].
      * cbn in Hd. injection Hd as Hy Hr. subst y.
        exists (best :: item :: pre'), post.
        split; [cbn; now rewrite Hr |]. split; [| assumption].
        pose proof (Hpre best (or_introl eq_refl)) as Hb.
        intros x [<- | [<- | Hin]]; [assumption | lra |].
        apply Hpre. now right.
Qed.

Lemma select_by_max_as_min (key : loc -> R) (rest : list loc) :
  forall best,
    select_by (fun a b => Rltb b a) key best rest =
    select_by Rltb (fun l => - key l) best rest.
Proof.
  induction rest as [| item rest IH]; intros best; cbn [select_by].
  - reflexivity.
  - assert (E : Rltb (key best) (key item) = Rltb (- key item) (- key best)).
    { unfold Rltb. destruct (Rlt_dec (key best) (key item)),
        (Rlt_dec (- key item) (- key best)); try reflexivity; lra. }
    rewrite E. clear E.
    destruct (Rltb (- key item) (- key best)); apply IH.
Qed.

(** X10: what the minimum scan returns.  The location returned by
    [get_min_by_column] occurs in the data list; every entry before its
    first returned occurrence has a strictly greater value in the column,
    and every entry after it has a value that is not smaller: it is the
    first point that attains the minimum. *)
Theorem X10_min_scan_first_least (h : heap) (data : list loc)
    (column_index : nat) (l : loc) :
  get_min_by_column h data column_index = Ok l ->
  exists pre post,
    data = pre ++ l :: post /\
    (forall x, In x pre ->
       column column_index (deref h l) < column column_index (deref h x)) /\
    (forall x, In x post ->
       column column_index (deref h l) <= column column_index (deref h x)).
Proof.
  unfold get_min_by_column. destruct data as [| first rest]; [discriminate |].
  intros H. apply Ok_inj in H. subst l.
  apply (select_by_first_least
           (fun l => column column_index (deref h l)) rest first).
Qed.

Lemma X10_min_scan_first_least_witness :
  exists pre post, [0%nat; 1%nat] = pre ++ 0%nat :: post.
Proof.
  destruct (X10_min_scan_first_least
              [mkPoint 1 2 3; mkPoint 1 5 6] [0%nat; 1%nat] 0%nat 0%nat)
    as [pre [post [H _]]].
  - cbv [get_min_by_column select_by column deref nth px].
    now rewrite Rltb_false by lra.
  - now exists pre, post.
Defined.

(** X11: what the maximum scan returns.  The location returned by
    [get_max_by_column] is the first entry of the data list that attains
    the maximum of the column: earlier entries are strictly smaller, later
    ones are not greater. *)
Theorem X11_max_scan_first_greatest (h : heap) (data : list loc)
    (column_index : nat) (l : loc) :
  get_max_by_column h data column_index = Ok l ->
  exists pre post,
    data = pre ++ l :: post /\
    (forall x, In x pre ->
       column column_index (deref h x) < column column_index (deref h l)) /\
    (forall x, In x post ->
       column column_index (deref h x) <= column column_index (deref h l)).
Proof.
  unfold get_max_by_column. destruct data as [| first rest]; [discriminate |].
  intros H. apply Ok_inj in H. subst l.
  rewrite select_by_max_as_min.
  destruct (select_by_first_least
              (fun l => - column column_index (deref h l)) rest first)
    as [pre [post [Hd [Hpre Hpost]]]].
  exists pre, post. split; [assumption |].
  split; intros x Hin; [specialize (Hpre x Hin) | specialize (Hpost x Hin)];
    cbn beta in *; lra.
Qed.

Lemma X11_max_scan_first_greatest_witness :
  exists pre post, [0%nat; 1%nat] = pre ++ 0%nat :: post.
Proof.
  destruct (X11_max_scan_first_greatest
              [mkPoint 1 2 3; mkPoint 1 5 6] [0%nat; 1%nat] 0%nat 0%nat)
    as [pre [post [H _]]].
  - cbv [get_max_by_column select_by column deref nth px].
    now rewrite Rltb_false by lra.
  - now exists pre, post.
Defined.

(** ** The lookups of the output stage *)

Lemma same_xy_refl (h : heap) : same_xy h h.
Proof. intros l. now split. Qed.

Lemma same_xy_trans (h1 h2 h3 : heap) :
  same_xy h1 h2 -> same_xy h2 h3 -> same_xy h1 h3.
Proof.
  intros H12 H23 l. destruct (H12 l), (H23 l). split; congruence.
Qed.

Lemma same_xy_store (h : heap) (l : loc) (z : R) :
  same_xy h (store h l (mkPoint (px (deref h l)) (py (deref h l)) z)).
Proof.
  intros l'. destruct (Nat.lt_ge_cases l (List.length h)) as [Hlt | Hge].
  - destruct (Nat.eq_dec l' l) as [-> | Hne].
    + rewrite deref_store_same by assumption. now split.
    + rewrite deref_store_other by assumption. now split.
  - rewrite store_out_of_range by assumption. now split.
Qed.

Lemma scans_same_xy (h h' : heap) (data : list loc) (column_index : nat) :
  same_xy h h' -> (column_index < 2)%nat ->
  get_min_by_column h' data column_index = get_min_by_column h data column_index /\
  get_max_by_column h' data column_index = get_max_by_column h data column_index.
Proof.
  intros Hxy Hc.
  assert (Hk : forall l, column column_index (deref h' l) =
                         column column_index (deref h l)).
  { intros l. destruct (Hxy l) as [Hx Hy].
    destruct column_index as [| [| n]]; cbn [column]; [assumption .. | lia]. }
  unfold get_min_by_column, get_max_by_column.
  destruct data as [| first rest]; [now split |].
  split; f_equal; now apply select_by_ext.
Qed.

Lemma override_z_target (h0 h : heap) (l : loc) (zsafety : R) :
  same_xy h0 h -> (l < List.length h)%nat ->
  fst (override_z h l zsafety) = target_of h0 l zsafety.
Proof.
  intros Hxy Hl. unfold override_z, target_of. cbn [fst].
  rewrite deref_store_same by assumption. cbn [px py pz].
  destruct (Hxy l) as [-> ->]. reflexivity.
Qed.

(** One lookup for an x or y extreme, made on a store that has the x and
    y entries of the original one. *)
Lemma get_extreme_value_xy (axis : string) (h0 h : heap) (data : list loc)
    (zsafety : R) (l : loc) :
  (axis = "Ymin" /\ get_min_by_column h0 data 1 = Ok l) \/
  (axis = "Xmin" /\ get_min_by_column h0 data 0 = Ok l) \/
  (axis = "Ymax" /\ get_max_by_column h0 data 1 = Ok l) \/
  (axis = "Xmax" /\ get_max_by_column h0 data 0 = Ok l) ->
  same_xy h0 h -> List.length h = List.length h0 -> valid_locs h0 data ->
  exists h1,
    get_extreme_value axis data zsafety h = Ok (target_of h0 l zsafety, h1) /\
    same_xy h0 h1 /\ List.length h1 = List.length h0.
Proof.
  intros Hax Hxy Hlen Hval.
  assert (Hin : In l data).
  { destruct Hax as [[_ H] | [[_ H] | [[_ H] | [_ H]]]];
      [apply get_min_by_column_In in H | apply get_min_by_column_In in H
      | apply get_max_by_column_In in H | apply get_max_by_column_In in H];
      assumption. }
  assert (Hl : (l < List.length h)%nat).
  { rewrite Hlen. unfold valid_locs in Hval.
    rewrite Forall_forall in Hval. now apply Hval. }
  exists (snd (override_z h l zsafety)).
  assert (Hres : Ok (override_z h l zsafety) =
                 Ok (target_of h0 l zsafety, snd (override_z h l zsafety))).
  { rewrite <- (override_z_target h0 h l zsafety Hxy Hl).
    now destruct (override_z h l zsafety). }
  split; [| split].
  - destruct (scans_same_xy h0 h data 0 Hxy ltac:(lia)) as [Hmin0 Hmax0].
    destruct (scans_same_xy h0 h data 1 Hxy ltac:(lia)) as [Hmin1 Hmax1].
    destruct Hax as [[-> H] | [[-> H] | [[-> H] | [-> H]]]];
      unfold get_extreme_value; cbn [String.eqb Ascii.eqb Bool.eqb].
    + rewrite Hmin1, H. exact Hres.
    + rewrite Hmin0, H. exact Hres.
    + rewrite Hmax1, H. exact Hres.
    + rewrite Hmax0, H. exact Hres.
  - apply (same_xy_trans h0 h); [assumption |].
    unfold override_z. cbn [snd]. apply same_xy_store.
  - unfold override_z. cbn [snd]. now rewrite store_length.
Qed.

Lemma generate_output_original_extremes (h : heap) (data : list loc)
    (zsafety : R) :
  valid_locs h data -> data <> [] ->
  exists lz ly lx lY lX h',
    get_min_by_column h data 2 = Ok lz /\
    get_min_by_column h data 1 = Ok ly /\
    get_min_by_column h data 0 = Ok lx /\
    get_max_by_column h data 1 = Ok lY /\
    get_max_by_column h data 0 = Ok lX /\
    generate_output data zsafety h =
      Ok ([ZminMessage (py_round (pz (deref h lz)) 3);
           target_of h ly zsafety; target_of h lx zsafety;
           target_of h lY zsafety; target_of h lX zsafety], h') /\
    same_xy h h'.
Proof.
  intros Hval Hne.
  destruct data as [| first rest] eqn:Ed; [contradiction |].
  rewrite <- Ed in *.
  assert (Hmin : forall col, exists l, get_min_by_column h data col = Ok l).
  { intros col. rewrite Ed. eexists. reflexivity. }
  assert (Hmax : forall col, exists l, get_max_by_column h data col = Ok l).
  { intros col. rewrite Ed. eexists. reflexivity. }
  destruct (Hmin 2%nat) as [lz Hz]. destruct (Hmin 1%nat) as [ly Hy].
  destruct (Hmin 0%nat) as [lx Hx]. destruct (Hmax 1%nat) as [lY HY].
  destruct (Hmax 0%nat) as [lX HX].
  destruct (get_extreme_value_xy "Ymin" h h data zsafety ly
              (or_introl (conj eq_refl Hy)) (same_xy_refl h) eq_refl Hval)
    as [h1 [E1 [S1 L1]]].
  destruct (get_extreme_value_xy "Xmin" h h1 data zsafety lx
              (or_intror (or_introl (conj eq_refl Hx))) S1 L1 Hval)
    as [h2 [E2 [S2 L2]]].
  destruct (get_extreme_value_xy "Ymax" h h2 data zsafety lY
              (or_intror (or_intror (or_introl (conj eq_refl HY)))) S2 L2 Hval)
    as [h3 [E3 [S3 L3]]].
  destruct (get_extreme_value_xy "Xmax" h h3 data zsafety lX
              (or_intror (or_intror (or_intror (conj eq_refl HX)))) S3 L3 Hval)
    as [h4 [E4 [S4 L4]]].
  exists lz, ly, lx, lY, lX, h4.
  repeat (split; [assumption |]). split; [| assumption].
  unfold generate_output. cbn [get_extreme_values].
  assert (EZ : get_extreme_value "Zmin" data zsafety h =
               Ok (ZminMessage (py_round (pz (deref h lz)) 3), h)).
  { unfold get_extreme_value. cbn [String.eqb Ascii.eqb Bool.eqb].
    now rewrite Hz. }
  rewrite EZ. cbn [bind fst snd]. rewrite E1. cbn [bind fst snd].
  rewrite E2. cbn [bind fst snd]. rewrite E3. cbn [bind fst snd].
  rewrite E4. reflexivity.
Qed.

(** X12: the writes of the safety height do not disturb the lookups.  On
    a data list that is not empty the five lookups of the output stage all
    succeed, and they report the Zmin value and the rounded x and y of the
    Ymin, Xmin, Ymax and Xmax points of the data as it was before the first
    lookup, each at the rounded safety height; afterwards every point of
    the data still has its x and y. *)
Theorem X12_output_reports_original_extremes (h : heap) (data : list loc)
    (zsafety : R) :
  valid_locs h data -> data <> [] ->
  exists lz ly lx lY lX h',
    get_min_by_column h data 2 = Ok lz /\
    get_min_by_column h data 1 = Ok ly /\
    get_min_by_column h data 0 = Ok lx /\
    get_max_by_column h data 1 = Ok lY /\
    get_max_by_column h data 0 = Ok lX /\
    generate_output data zsafety h =
      Ok ([ZminMessage (py_round (pz (deref h lz)) 3);
           target_of h ly zsafety; target_of h lx zsafety;
           target_of h lY zsafety; target_of h lX zsafety], h') /\
    same_xy h h'.
Proof. exact (generate_output_original_extremes h data zsafety). Qed.

Lemma X12_output_reports_original_extremes_witness :
  exists lz ly lx lY lX h',
    generate_output [0%nat] 25 [mkPoint 1 2 3] =
      Ok ([ZminMessage (py_round (pz (deref [mkPoint 1 2 3] lz)) 3);
           target_of [mkPoint 1 2 3] ly 25; target_of [mkPoint 1 2 3] lx 25;
           target_of [mkPoint 1 2 3] lY 25; target_of [mkPoint 1 2 3] lX 25],
          h').
Proof.
  destruct (X12_output_reports_original_extremes [mkPoint 1 2 3] [0%nat] 25)
    as [lz [ly [lx [lY [lX [h' [_ [_ [_ [_ [_ [H _]]]]]]]]]]]].
  - constructor; [cbn; lia | constructor].
  - discriminate.
  - now exists lz, ly, lx, lY, lX, h'.
Defined.

(** X13: a file without moves stops the output stage.  When every line of
    the input is blank the data set is empty, and the first lookup of the
    output stage then raises the [ValueError] of [min] on an empty
    sequence. *)
Theorem X13_blank_input_fails_at_Zmin (lines : list string) (zsafety : R) :
  forallb (fun line => negb (nonblank line)) lines = true ->
  create_dataset_from_input lines = Ok [] /\
  generate_output (snd (allocate [])) zsafety (fst (allocate [])) =
    Raise (ValueError "min() arg is an empty sequence").
Proof.
  intros Hblank. split; [| reflexivity].
  unfold create_dataset_from_input.
  assert (H : forall st, data st = [] ->
                exists st', process_lines st lines = Ok st' /\ data st' = []).
  { induction lines as [| line lines IH]; intros st Hd.
    - exists st. now split.
    - cbn [forallb] in Hblank. apply andb_true_iff in Hblank as [Hl Hrest].
      apply negb_true_iff in Hl. cbn [process_lines].
      rewrite process_line_cases, Hl. cbn [bind].
      apply (IH Hrest). exact Hd. }
  destruct (H initial eq_refl) as [st' [Hp Hd]].
  now rewrite Hp, <- Hd.
Qed.

Lemma X13_blank_input_fails_at_Zmin_witness :
  create_dataset_from_input [""; "  "] = Ok [].
Proof.
  apply (X13_blank_input_fails_at_Zmin [""; "  "] 25). reflexivity.
Defined.

(** ** The safety height once more *)


(** ** Prefixes of the input *)

Lemma process_lines_extends (lines : list string) :
  forall st st',
    process_lines st lines = Ok st' ->
    exists d, data st' = data st ++ d.
Proof.
  induction lines as [| line lines IH]; intros st st' H.
  - apply Ok_inj in H. subst st'. exists []. now rewrite app_nil_r.
  - cbn [process_lines] in H. rewrite process_line_cases in H.
    destruct (nonblank line).
    + destruct (handle_linear_move _ _ _) as [p |]; [| discriminate].
      cbn [bind] in H. destruct (IH _ _ H) as [d Hd]. cbn [data] in Hd.
      exists (p :: d). rewrite Hd, <- app_assoc. reflexivity.
    + cbn [bind] in H. destruct (IH _ _ H) as [d Hd]. cbn [data] in Hd.
      now exists d.
Qed.

Lemma process_lines_app (l1 l2 : list string) :
  forall st,
    process_lines st (l1 ++ l2) =
      (st' <- process_lines st l1 ;; process_lines st' l2).
Proof.
  induction l1 as [| line l1 IH]; intros st.
  - reflexivity.
  - cbn [app process_lines].
    destruct (process_line st line) as [st1 |]; [| reflexivity].
    cbn [bind]. apply IH.
Qed.

(** X15: lines that follow never change the points before them.  When a
    file and a longer file that starts with it are both processed, the
    points of the shorter one are an initial segment of the points of the
    longer one. *)
Theorem X15_prefix_of_input_gives_prefix_of_data (l1 l2 : list string)
    (d1 d : list point) :
  create_dataset_from_input l1 = Ok d1 ->
  create_dataset_from_input (l1 ++ l2) = Ok d ->
  exists d2, d = d1 ++ d2.
Proof.
  unfold create_dataset_from_input. rewrite process_lines_app.
  destruct (process_lines initial l1) as [st1 |]; [| discriminate].
  cbn [bind]. intros H1 H2. apply Ok_inj in H1. subst d1.
  destruct (process_lines st1 l2) as [st2 |] eqn:E; [| discriminate].
  cbn [bind] in H2. apply Ok_inj in H2. subst d.
  exact (process_lines_extends l2 st1 st2 E).
Qed.

Lemma X15_prefix_of_input_gives_prefix_of_data_witness :
  exists d2, [mkPoint 1 0 0; mkPoint 1 2 0] = [mkPoint 1 0 0] ++ d2.
Proof.
  apply (X15_prefix_of_input_gives_prefix_of_data ["G01 X1"] ["G01 Y2"]).
  - rcbv. req.
  - rcbv. req.
Defined.

(** ** Reading the rapid-move line back *)

Lemma list_ascii_of_string_app (a b : string) :
  list_ascii_of_string (a ++ b) =
    list_ascii_of_string a ++ list_ascii_of_string b.
Proof. induction a as [| c a IH]; cbn; [reflexivity | now rewrite IH]. Qed.

Lemma forallb_rev {A : Type} (f : A -> bool) (l : list A) :
  forallb f (rev l) = forallb f l.
Proof.
  induction l as [| x l IH]; [reflexivity |].
  cbn. rewrite forallb_app, IH. cbn. rewrite andb_true_r. apply andb_comm.
Qed.

Lemma lstrip_chars_clean (cs l : list ascii) :
  forallb (fun c => negb (Str.mem_ascii c cs)) l = true ->
  Str.lstrip_chars cs l = l.
Proof.
  destruct l as [| c l]; [reflexivity |]. cbn [forallb Str.lstrip_chars].
  intros H. apply andb_true_iff in H as [H _].
  apply negb_true_iff in H. now rewrite H.
Qed.

Lemma strip_chars_clean (cs l : list ascii) :
  forallb (fun c => negb (Str.mem_ascii c cs)) l = true ->
  Str.strip_chars cs l = l.
Proof.
  intros H. unfold Str.strip_chars.
  rewrite (lstrip_chars_clean cs l H).
  rewrite lstrip_chars_clean by now rewrite forallb_rev.
  apply rev_involutive.
Qed.

Lemma strip_chars_cons (cs l : list ascii) (c : ascii) :
  Str.mem_ascii c cs = true ->
  forallb (fun c => negb (Str.mem_ascii c cs)) l = true ->
  Str.strip_chars cs (c :: l) = l.
Proof.
  intros Hc H. unfold Str.strip_chars. cbn [Str.lstrip_chars]. rewrite Hc.
  now apply strip_chars_clean.
Qed.

(** A text that ends in a character outside the set loses only the
    characters of the set that follow it. *)
Lemma strip_chars_tail (cs l : list ascii) (a b c : ascii) :
  Str.mem_ascii a cs = false ->
  Str.mem_ascii b cs = false ->
  Str.mem_ascii c cs = true ->
  forall t,
    forallb (fun c => negb (Str.mem_ascii c cs)) t = true ->
    Str.strip_chars cs (a :: l ++ b :: t ++ [c]) = a :: l ++ b :: t.
Proof.
  intros Ha Hb Hc t Ht. unfold Str.strip_chars.
  cbn [Str.lstrip_chars]. rewrite Ha.
  set (L := a :: l ++ b :: t).
  assert (E1 : a :: l ++ b :: t ++ [c] = L ++ [c]).
  { unfold L. cbn. now rewrite <- app_assoc. }
  assert (E2 : Str.lstrip_chars cs (rev L) = rev L).
  { unfold L. replace (a :: l ++ b :: t) with ((a :: l) ++ b :: t)
      by reflexivity.
    rewrite rev_app_distr. cbn [rev]. rewrite <- app_assoc. cbn [app].
    destruct (rev t) as [| d t'] eqn:E.
    - cbn [app Str.lstrip_chars]. now rewrite Hb.
    - cbn [app Str.lstrip_chars].
      assert (Hd : Str.mem_ascii d cs = false).
      { rewrite <- forallb_rev, E in Ht. cbn in Ht.
        apply andb_true_iff in Ht as [Ht _]. now apply negb_true_iff. }
      now rewrite Hd. }
  rewrite E1, rev_app_distr. cbn [rev app Str.lstrip_chars]. rewrite Hc.
  rewrite E2. apply rev_involutive.
Qed.

Lemma split_space_aux_word (w : list ascii) :
  forallb (fun c => negb (Ascii.eqb c " ")) w = true ->
  forall cur,
    (forall rest,
       Str.split_space_aux cur (w ++ " "%char :: rest) =
         string_of_list_ascii (rev cur ++ w) :: Str.split_space_aux [] rest) /\
    Str.split_space_aux cur w = [string_of_list_ascii (rev cur ++ w)].
Proof.
  induction w as [| c w IH]; intros Hw cur.
  - cbn. now rewrite app_nil_r.
  - cbn [forallb] in Hw. apply andb_true_iff in Hw as [Hc Hw].
    apply negb_true_iff in Hc. destruct (IH Hw (c :: cur)) as [IH1 IH2].
    cbn [app Str.split_space_aux]. rewrite Hc.
    cbn [rev] in IH1, IH2.
    split; [intros rest; rewrite IH1 | rewrite IH2];
      now rewrite <- app_assoc.
Qed.

Lemma index_single_absent (c : ascii) (s : string) :
  forallb (fun a => negb (Ascii.eqb a c)) (list_ascii_of_string s) = true ->
  index 0 (String c EmptyString) s = None.
Proof.
  induction s as [| a s IH]; [reflexivity |].
  cbn [list_ascii_of_string forallb]. intros H.
  apply andb_true_iff in H as [Ha H]. apply negb_true_iff in Ha.
  cbn [index].
  assert (Hp : prefix (String c EmptyString) (String a s) = false).
  { destruct (prefix (String c EmptyString) (String a s)) eqn:E;
      [| reflexivity].
    apply prefix_correct in E. cbn in E. injection E as E _.
    subst a. now rewrite Ascii.eqb_refl in Ha. }
  now rewrite Hp, (IH H).
Qed.

Lemma contains_head (c : ascii) (s : string) :
  contains (String c s) (String c EmptyString) = true.
Proof.
  unfold contains, Str.find. cbn [index].
  assert (Hp : prefix (String c EmptyString) (String c s) = true).
  { apply prefix_correct. cbn. now destruct s. }
  now rewrite Hp.
Qed.

Lemma contains_absent (c : ascii) (s : string) :
  forallb (fun a => negb (Ascii.eqb a c)) (list_ascii_of_string s) = true ->
  contains s (String c EmptyString) = false.
Proof.
  intros H. unfold contains, Str.find. now rewrite index_single_absent.
Qed.

Lemma forallb_weaken {A : Type} (f g : A -> bool) (l : list A) :
  (forall a, f a = true -> g a = true) ->
  forallb f l = true -> forallb g l = true.
Proof.
  intros Hfg. induction l as [| a l IH]; [reflexivity |].
  cbn. intros H. apply andb_true_iff in H as [Ha Hl].
  now rewrite (Hfg a Ha), IH.
Qed.

Lemma not_reserved_neq (a c : ascii) :
  Str.mem_ascii c reserved = true ->
  negb (Str.mem_ascii a reserved) = true ->
  negb (Ascii.eqb a c) = true.
Proof.
  intros Hc Ha. destruct (Ascii.eqb a c) eqn:E; [| reflexivity].
  apply Ascii.eqb_eq in E. subst a. now rewrite Hc in Ha.
Qed.

Lemma plain_without (s : string) (c : ascii) :
  Str.mem_ascii c reserved = true -> plain s = true ->
  forallb (fun a => negb (Ascii.eqb a c)) (list_ascii_of_string s) = true.
Proof.
  intros Hc. apply forallb_weaken. intros a. now apply not_reserved_neq.
Qed.

Lemma plain_outside (s : string) (cs : list ascii) :
  forallb (fun c => Str.mem_ascii c reserved) cs = true ->
  plain s = true ->
  forallb (fun a => negb (Str.mem_ascii a cs)) (list_ascii_of_string s) = true.
Proof.
  intros Hcs. apply forallb_weaken. intros a Ha.
  unfold Str.mem_ascii at 1. apply negb_true_iff.
  induction cs as [| c cs IH]; [reflexivity |].
  cbn [forallb existsb] in *. apply andb_true_iff in Hcs as [Hc Hcs].
  pose proof (not_reserved_neq a c Hc Ha) as Hne.
  apply negb_true_iff in Hne. rewrite Hne. now apply IH.
Qed.

(** The word that [get_rapidmove] writes for one axis is read back as the
    number after the letter, and touches no other slot. *)
Lemma parse_value_X (c : coordinate) (x : string) :
  plain x = true ->
  parse_value c (String "X" x) =
    (fx <- float x ;;
     Ok (mkCoordinate (Some fx) (cY c) (cZ c) (cI c) (cJ c))).
Proof.
  intros Hx. unfold parse_value.
  rewrite (contains_head "X" x).
  assert (Hs : Str.strip_set "X " (String "X" x) = x).
  { unfold Str.strip_set. cbn [list_ascii_of_string].
    rewrite strip_chars_cons;
      [apply string_of_list_ascii_of_string | reflexivity |].
    now apply plain_outside. }
  rewrite Hs.
  rewrite (contains_absent "Y"), (contains_absent "Z"),
          (contains_absent "I"), (contains_absent "J");
    try (cbn [list_ascii_of_string forallb]; rewrite plain_without;
         [reflexivity | reflexivity | assumption]).
  destruct (float x); reflexivity.
Qed.

Lemma parse_value_Y (c : coordinate) (y : string) :
  plain y = true ->
  parse_value c (String "Y" y) =
    (fy <- float y ;;
     Ok (mkCoordinate (cX c) (Some fy) (cZ c) (cI c) (cJ c))).
Proof.
  intros Hy. unfold parse_value.
  rewrite (contains_head "Y" y).
  assert (Hs : Str.strip_set "Y " (String "Y" y) = y).
  { unfold Str.strip_set. cbn [list_ascii_of_string].
    rewrite strip_chars_cons;
      [apply string_of_list_ascii_of_string | reflexivity |].
    now apply plain_outside. }
  rewrite Hs.
  rewrite (contains_absent "X"), (contains_absent "Z"),
          (contains_absent "I"), (contains_absent "J");
    try (cbn [list_ascii_of_string forallb]; rewrite plain_without;
         [reflexivity | reflexivity | assumption]).
  cbn [bind]. destruct (float y); reflexivity.
Qed.

Lemma parse_value_Z (c : coordinate) (z : string) :
  plain z = true ->
  parse_value c (String "Z" z) =
    (fz <- float z ;;
     Ok (mkCoordinate (cX c) (cY c) (Some fz) (cI c) (cJ c))).
Proof.
  intros Hz. unfold parse_value.
  rewrite (contains_head "Z" z).
  assert (Hs : Str.strip_set "Z " (String "Z" z) = z).
  { unfold Str.strip_set. cbn [list_ascii_of_string].
    rewrite strip_chars_cons;
      [apply string_of_list_ascii_of_string | reflexivity |].
    now apply plain_outside. }
  rewrite Hs.
  rewrite (contains_absent "X"), (contains_absent "Y"),
          (contains_absent "I"), (contains_absent "J");
    try (cbn [list_ascii_of_string forallb]; rewrite plain_without;
         [reflexivity | reflexivity | assumption]).
  cbn [bind]. destruct (float z); reflexivity.
Qed.

Lemma strip_get_rapidmove (x y z : string) :
  plain z = true ->
  Str.strip (get_rapidmove x y z) =
    ("G00 X" ++ x ++ " Y" ++ y ++ " Z" ++ z)%string.
Proof.
  intros Hz. unfold Str.strip, get_rapidmove, newline.
  rewrite <- (string_of_list_ascii_of_string
                ("G00 X" ++ x ++ " Y" ++ y ++ " Z" ++ z)%string).
  f_equal.
  repeat rewrite list_ascii_of_string_app.
  cbn [list_ascii_of_string app].
  set (lx := list_ascii_of_string x). set (ly := list_ascii_of_string y).
  set (lz := list_ascii_of_string z).
  replace ("G"%char :: "0"%char :: "0"%char :: " "%char :: "X"%char
           :: lx ++ " "%char :: "Y"%char :: ly ++ " "%char :: "Z"%char
           :: lz ++ [ascii_of_nat 10])
    with ("G"%char :: ("0"%char :: "0"%char :: " "%char :: "X"%char
           :: lx ++ " "%char :: "Y"%char :: ly ++ [" "%char])
           ++ "Z"%char :: lz ++ [ascii_of_nat 10]).
  - rewrite strip_chars_tail; try reflexivity.
    + repeat (first [rewrite <- app_assoc | progress (cbn [app])]).
      reflexivity.
    + now apply plain_outside.
  - repeat (first [rewrite <- app_assoc | progress (cbn [app])]).
    reflexivity.
Qed.

Lemma split_rapidmove (x y z : string) :
  plain x = true -> plain y = true -> plain z = true ->
  Str.split_space ("G00 X" ++ x ++ " Y" ++ y ++ " Z" ++ z) =
    ["G00"; String "X" x; String "Y" y; String "Z" z].
Proof.
  intros Hx Hy Hz. unfold Str.split_space.
  repeat rewrite list_ascii_of_string_app.
  cbn [list_ascii_of_string app].
  assert (Hsp : forall s, plain s = true ->
            forallb (fun c => negb (Ascii.eqb c " "))
                    (list_ascii_of_string s) = true).
  { intros s Hs. now apply plain_without. }
  cbn [Str.split_space_aux Ascii.eqb Bool.eqb].
  destruct (split_space_aux_word (list_ascii_of_string x) (Hsp x Hx)
              ["X"%char]) as [Ex _].
  destruct (split_space_aux_word (list_ascii_of_string y) (Hsp y Hy)
              ["Y"%char]) as [Ey _].
  destruct (split_space_aux_word (list_ascii_of_string z) (Hsp z Hz)
              ["Z"%char]) as [_ Ez].
  rewrite Ex. cbn [Str.split_space_aux Ascii.eqb Bool.eqb].
  rewrite Ey. cbn [Str.split_space_aux Ascii.eqb Bool.eqb].
  rewrite Ez. cbn [rev app string_of_list_ascii].
  now rewrite !string_of_list_ascii_of_string.
Qed.

(** X16: the rapid-move line is read back as it was written.  For three
    texts without white space and axis letters, the line that
    [get_rapidmove] builds from them, stripped as the driver strips it, is
    parsed into exactly the numbers that [float] reads from the three
    texts, in the X, Y and Z slot, with I and J left empty; if one of the
    texts is not a number, the parse fails with the error of the first
    such text. *)
Theorem X16_rapidmove_read_back (x y z : string) :
  plain x = true -> plain y = true -> plain z = true ->
  parse_coordinates (Str.strip (get_rapidmove x y z)) =
    (fx <- float x ;;
     fy <- float y ;;
     fz <- float z ;;
     Ok (mkCoordinate (Some fx) (Some fy) (Some fz) None None)).
Proof.
  intros Hx Hy Hz.
  rewrite (strip_get_rapidmove x y z Hz).
  unfold parse_coordinates. rewrite (split_rapidmove x y z Hx Hy Hz).
  cbn [parse_values].
  replace (parse_value (mkCoordinate None None None None None) "G00")
    with (Ok (mkCoordinate None None None None None)) by reflexivity.
  cbn [bind]. rewrite (parse_value_X _ x Hx).
  destruct (float x) as [fx |]; [| reflexivity]. cbn [bind].
  rewrite (parse_value_Y _ y Hy).
  destruct (float y) as [fy |]; [| reflexivity]. cbn [bind].
  rewrite (parse_value_Z _ z Hz).
  destruct (float z) as [fz |]; reflexivity.
Qed.

Lemma X16_rapidmove_read_back_witness :
  parse_coordinates (Str.strip (get_rapidmove "1.5" "-2.0" "25.0")) =
    (fx <- float "1.5" ;;
     fy <- float "-2.0" ;;
     fz <- float "25.0" ;;
     Ok (mkCoordinate (Some fx) (Some fy) (Some fz) None None)).
Proof.
  apply (X16_rapidmove_read_back "1.5" "-2.0" "25.0"); reflexivity.
Defined.

(** ** The two stages together *)

Lemma allocate_valid (points : list point) :
  valid_locs (fst (allocate points)) (snd (allocate points)).
Proof.
  unfold valid_locs, allocate. cbn [fst snd].
  apply Forall_forall. intros l Hl. apply in_seq in Hl. lia.
Qed.

(** X17: a data set with at least one point always passes the output
    stage.  For the data list that the driver builds from one or more
    points, the five lookups succeed and yield five entries, and the x and
    y of every point are as the driver computed them. *)
Theorem X17_nonempty_dataset_passes_output (points : list point)
    (zsafety : R) :
  points <> [] ->
  exists results h',
    generate_output (snd (allocate points)) zsafety (fst (allocate points)) =
      Ok (results, h') /\
    List.length results = 5%nat /\
    same_xy points h'.
Proof.
  intros Hne.
  destruct (generate_output_original_extremes
              (fst (allocate points)) (snd (allocate points)) zsafety
              (allocate_valid points))
    as [lz [ly [lx [lY [lX [h' [_ [_ [_ [_ [_ [H Hxy]]]]]]]]]]]].
  - destruct points; [contradiction | discriminate].
  - eexists. exists h'. split; [exact H |]. split; [reflexivity | exact Hxy].
Qed.

Lemma X17_nonempty_dataset_passes_output_witness :
  exists results h',
    generate_output (snd (allocate [mkPoint 1 2 3])) 25
                    (fst (allocate [mkPoint 1 2 3])) = Ok (results, h') /\
    List.length results = 5%nat /\
    same_xy [mkPoint 1 2 3] h'.
Proof.
  apply (X17_nonempty_dataset_passes_output [mkPoint 1 2 3] 25). discriminate.
Defined.

(** ** Why the parser fails *)

Lemma parse_values_raise (values : list string) (e : exception) :
  forall c0,
    parse_values c0 values = Raise e ->
    exists value, In value values /\ bad_word value e.
Proof.
  induction values as [| v values IH]; intros c0 H; [discriminate |].
  cbn [parse_values] in H.
  destruct (parse_value c0 v) as [c |] eqn:E.
  - cbn [bind] in H. destruct (IH c H) as [value [Hin Hbad]].
    exists value. split; [now right | assumption].
  - cbn [bind] in H. injection H as <-.
    exists v. split; [now left | now apply parse_value_raise with (c0 := c0)].
Qed.

(** X18: the parser fails for one reason only.  Whenever
    [parse_coordinates] raises, some word of the line mentions an axis
    letter, the text left after stripping that letter and spaces is not a
    number, and the exception is the [ValueError] of [float] on that
    text. *)
Theorem X18_parse_fails_only_on_bad_word (line : string) (e : exception) :
  parse_coordinates line = Raise e ->
  exists value, In value (Str.split_space line) /\ bad_word value e.
Proof. apply parse_values_raise. Qed.

Lemma X18_parse_fails_only_on_bad_word_witness :
  exists value,
    In value (Str.split_space "G01 Xabc") /\
    bad_word value (ValueError "could not convert string to float: 'abc'").
Proof.
  apply (X18_parse_fails_only_on_bad_word "G01 Xabc"). reflexivity.
Defined.
